(** * CYD MIDI Controller: mode orchestrator and connection lifecycle

    A shallow embedding of [CYD-MIDI-Controller.ino]: the application
    registry, the menu grid geometry used by [drawMenu] and
    [handleMenuTouch], the mode switch ([enterMode], [exitToMenu], [loop])
    and the BLE connection callbacks ([MIDICallbacks]).

    The sketch is a set of global variables mutated by [void] functions that
    talk to the display, the touch controller and the MIDI sink.  It is
    modelled as a state monad over the globals that also logs every call to
    an external collaborator, and that fails where the C++ has no defined
    behaviour (a read past the end of [apps]). *)

From Stdlib Require Import ZArith List String Bool Lia.
Import ListNotations.
Local Open Scope Z_scope.

(** ** Data model *)

(** [enum AppMode] is declared in [common_definitions.h]; its values are the
    ones the sketch switches over in [loop] and [enterMode]. *)
Inductive AppMode : Set :=
  | MENU
  | KEYBOARD
  | SEQUENCER
  | BOUNCING_BALL
  | PHYSICS_DROP
  | RANDOM_GENERATOR
  | XY_PAD
  | ARPEGGIATOR
  | GRID_PIANO
  | AUTO_CHORD
  | LFO.

Definition AppMode_eq_dec (a b : AppMode) : {a = b} + {a <> b}.
Proof. decide equality. Defined.

Definition AppMode_eqb (a b : AppMode) : bool :=
  if AppMode_eq_dec a b then true else false.

(** [struct AppIcon]. *)
Record AppIcon : Set := mkAppIcon {
  name : string;
  symbol : string;
  color : Z;          (* uint16_t, packed RGB565 *)
  mode : AppMode
}.

(** Modelled from the spec: [struct TouchState] ([ui_elements.h] is not part
    of the sources).  The spec gives it the fields
    [{ x, y, pressed, justPressed }]. *)
Record TouchState : Set := mkTouch {
  tx : Z;
  ty : Z;
  pressed : bool;
  justPressed : bool
}.

(** The globals of the sketch that the functions below read or write. *)
Record State : Set := mkState {
  deviceConnected : bool;
  touch : TouchState;
  currentMode : AppMode;
  apps : list AppIcon;
  numApps : Z
}.

Definition MAX_APPS : Z := 12.

(** The initialiser of [apps[]]. *)
Definition apps_init : list AppIcon :=
  [ mkAppIcon "KEYS"   "♪" 0xF800 KEYBOARD;
    mkAppIcon "BEATS"  "♫" 0xFD00 SEQUENCER;
    mkAppIcon "ZEN"    "●" 0xFFE0 BOUNCING_BALL;
    mkAppIcon "DROP"   "⬇" 0x07E0 PHYSICS_DROP;
    mkAppIcon "RNG"    "※" 0x001F RANDOM_GENERATOR;
    mkAppIcon "XY PAD" "◈" 0x781F XY_PAD;
    mkAppIcon "ARP"    "↗" 0xF81F ARPEGGIATOR;
    mkAppIcon "GRID"   "▣" 0x07FF GRID_PIANO;
    mkAppIcon "CHORD"  "⚘" 0xFBE0 AUTO_CHORD;
    mkAppIcon "LFO"    EmptyString 0xAFE5 LFO ]%string.

(** The globals as their initialisers leave them:
    [deviceConnected = false], [currentMode = MENU], [numApps = 10]. *)
Definition initial_state : State :=
  {| deviceConnected := false;
     touch := mkTouch 0 0 false false;
     currentMode := MENU;
     apps := apps_init;
     numApps := 10 |}.

(** ** Calls to the collaborators *)

(** The theme colours are macros of [common_definitions.h]; they stay
    symbolic.  [Rgb565] carries a colour given by value. *)
Inductive Colour : Set :=
  | THEME_BG
  | THEME_SURFACE
  | THEME_PRIMARY
  | THEME_TEXT
  | THEME_TEXT_DIM
  | THEME_ERROR
  | THEME_SUCCESS
  | Rgb565 (c : Z).

(** The [tft] primitives that [drawMenu] uses, with their arguments. *)
Inductive DrawCall : Set :=
  | fillScreen (c : Colour)
  | fillRect (x y w h : Z) (c : Colour)
  | drawFastHLine (x y w : Z) (c : Colour)
  | setTextColor (fg bg : Colour)
  | drawCentreString (s : string) (x y font : Z)
  | drawString (s : string) (x y font : Z)
  | fillRoundRect (x y w h r : Z) (c : Colour)
  | drawRoundRect (x y w h r : Z) (c : Colour)
  (* [drawAppGraphics(mode, x, y, iconSize)]: decorative artwork inside the
     icon, made of [tft] primitives only; logged as one call. *)
  | drawAppGraphics (m : AppMode) (x y iconSize : Z).

(** Everything the sketch does to the outside world, in call order. *)
Inductive Effect : Set :=
  | Tft (d : DrawCall)
  | SendMIDI (cmd note vel : Z)          (* sendMIDI(cmd, note, vel) *)
  | UpdateStatus                         (* updateStatus() *)
  | DrawMode (m : AppMode)               (* draw<M>Mode() *)
  | HandleMode (m : AppMode) (t : TouchState)   (* handle<M>Mode() *)
  | StopAllModes                         (* stopAllModes() *)
  | MenuHitTest (t : TouchState)         (* entry of handleMenuTouch() *)
  | Delay (ms : Z)                       (* delay(ms) *)
  | HardwareInit     (* lines 112-162 of setup(): serial, touch, display,
                        UART2 and BLE bring-up; it assigns the global
                        pCharacteristic, which only sendMIDI reads *)
  | InitializeMode (m : AppMode).        (* initialize<M>Mode() *)

(** ** The monad of the sketch

    A computation reads and writes the globals, appends to the log of
    effects, and yields [None] where the C++ is undefined. *)
Definition M (A : Type) : Type := State -> option (A * State * list Effect).

Definition ret {A} (a : A) : M A := fun s => Some (a, s, []).

Definition bind {A B} (m : M A) (k : A -> M B) : M B :=
  fun s =>
    match m s with
    | None => None
    | Some (a, s1, t1) =>
        match k a s1 with
        | None => None
        | Some (b, s2, t2) => Some (b, s2, t1 ++ t2)
        end
    end.

Definition get : M State := fun s => Some (s, s, []).
Definition emit (e : Effect) : M unit := fun s => Some (tt, s, [e]).

Declare Scope sketch_scope.
Delimit Scope sketch_scope with sketch.
Notation "x <- m ;; k" := (bind m (fun x => k))
  (at level 61, m at next level, right associativity) : sketch_scope.
Notation "m ;; k" := (bind m (fun _ => k))
  (at level 61, right associativity) : sketch_scope.
Local Open Scope sketch_scope.

Definition when (b : bool) (m : M unit) : M unit := if b then m else ret tt.

(** [for (int i = from; i < from + n; i++) body(i);] with no early exit. *)
Fixpoint for_range (n : nat) (i : Z) (body : Z -> M unit) : M unit :=
  match n with
  | O => ret tt
  | S n' => body i ;; for_range n' (i + 1) body
  end.

Definition set_deviceConnected (b : bool) : M unit :=
  fun s => Some (tt, {| deviceConnected := b; touch := touch s;
                        currentMode := currentMode s; apps := apps s;
                        numApps := numApps s |}, []).

Definition set_currentMode (m : AppMode) : M unit :=
  fun s => Some (tt, {| deviceConnected := deviceConnected s; touch := touch s;
                        currentMode := m; apps := apps s;
                        numApps := numApps s |}, []).

Definition set_touch (t : TouchState) : M unit :=
  fun s => Some (tt, {| deviceConnected := deviceConnected s; touch := t;
                        currentMode := currentMode s; apps := apps s;
                        numApps := numApps s |}, []).

(** [apps[i]]: reading past the end of the array is undefined. *)
Definition apps_at (i : Z) : M AppIcon :=
  fun s =>
    if i <? 0 then None
    else match nth_error (apps s) (Z.to_nat i) with
         | Some a => Some (a, s, [])
         | None => None
         end.

(** ** C++ [int] arithmetic (32 bits, two's complement) *)

Definition wrap_int (z : Z) : Z := (z + 2 ^ 31) mod 2 ^ 32 - 2 ^ 31.
Definition int_add (a b : Z) : Z := wrap_int (a + b).
Definition int_sub (a b : Z) : Z := wrap_int (a - b).
Definition int_mul (a b : Z) : Z := wrap_int (a * b).
(* [/] and [%] truncate towards zero *)
Definition int_div (a b : Z) : Z := Z.quot a b.
Definition int_mod (a b : Z) : Z := Z.rem a b.

(** ** Collaborators that live outside the sketch *)

(** Modelled from the spec: [sendMIDI] ([midi_utils.h] is not part of the
    sources).  It is the Sink: one call hands one MIDI event, a status byte
    and two data bytes, to every attached transport.  The call is logged
    with the arguments the caller passes. *)
Definition sendMIDI (cmd note vel : Z) : M unit := emit (SendMIDI cmd note vel).

(** Modelled from the spec: [updateStatus] ([ui_elements.h] is not part of
    the sources); a display routine, logged as one call. *)
Definition updateStatus : M unit := emit UpdateStatus.

(** Modelled from the spec: [stopAllModes], the teardown that stops the
    notes and timers the modes scheduled; logged as one call. *)
Definition stopAllModes : M unit := emit StopAllModes.

(** Whether the rectangle [(x, y, w, h)] contains the point [(px, py)];
    the edges count as inside. *)
Definition rect_contains (r : Z * Z * Z * Z) (px py : Z) : bool :=
  let '(x, y, w, h) := r in
  (x <=? px) && (px <=? x + w) && (y <=? py) && (py <=? y + h).

(** Modelled from the spec: [isButtonPressed(x, y, w, h)] ([ui_elements.h]
    is not part of the sources): whether the rectangle [(x, y, w, h)]
    contains the touch point held in the global [touch]. *)
Definition isButtonPressed (t : TouchState) (x y w h : Z) : bool :=
  rect_contains (x, y, w, h) (tx t) (ty t).

(** What the touch controller reports when it is polled. *)
Record Sample : Set := mkSample {
  s_pressed : bool;
  s_x : Z;
  s_y : Z
}.

(** The touch state that a poll yields, given the one of the tick before:
    [justPressed := pressed && !previousPressed]. *)
Definition sampled (prev : TouchState) (raw : Sample) : TouchState :=
  {| tx := s_x raw; ty := s_y raw;
     pressed := s_pressed raw;
     justPressed := s_pressed raw && negb (pressed prev) |}.

(** Modelled from the spec: [updateTouch] ([ui_elements.h] is not part of
    the sources; section 4.3 of the spec): the global [touch] is replaced
    by the sample of this tick, with rising-edge detection. *)
Definition updateTouch (raw : Sample) : M unit :=
  s <- get ;;
  set_touch (sampled (touch s) raw).

(** What a mode does with its tick, as far as the sketch can see it: the
    events it hands to the Sink, and whether its "return to menu" trigger
    fired. *)
Record ModeAction : Set := mkAction {
  sends : list (Z * Z * Z);
  returnToMenu : bool
}.

Definition idle : ModeAction := {| sends := []; returnToMenu := false |}.

Fixpoint send_all (l : list (Z * Z * Z)) : M unit :=
  match l with
  | [] => ret tt
  | (c, n, v) :: l' => sendMIDI c n v ;; send_all l'
  end.

(** ** The menu *)

Definition tft (d : DrawCall) : M unit := emit (Tft d).

(** The locals of [drawMenu] and the rectangle it paints for icon [i]. *)
Module DrawMenu.
Definition iconSize : Z := 40.
Definition spacing : Z := 8.
Definition cols : Z := 5.
(* [rows] is computed by [drawMenu] and never read *)
Definition rows (numApps : Z) : Z :=
  int_div (int_sub (int_add numApps cols) 1) cols.
Definition startX : Z :=
  int_div
    (int_sub 320 (int_add (int_mul cols iconSize)
                          (int_mul (int_sub cols 1) spacing))) 2.
Definition startY : Z := 65.
Definition cell (i : Z) : Z * Z * Z * Z :=
  let col := int_mod i cols in
  let row := int_div i cols in
  let x := int_add startX (int_mul col (int_add iconSize spacing)) in
  let y := int_add startY
             (int_mul row (int_add (int_add iconSize spacing) 15)) in
  (x, y, iconSize, iconSize).
End DrawMenu.

(** The body of the [for] loop of [drawMenu], for icon [i]. *)
Definition drawMenu_icon (i : Z) : M unit :=
  let '(x, y, w, h) := DrawMenu.cell i in
  a <- apps_at i ;;
  let iconColor := Rgb565 (color a) in
  tft (fillRoundRect x y w h 8 iconColor) ;;
  tft (drawRoundRect x y w h 8 THEME_TEXT) ;;
  tft (drawAppGraphics (mode a) x y DrawMenu.iconSize) ;;
  tft (setTextColor THEME_BG iconColor) ;;
  tft (drawCentreString (symbol a)
         (int_add x (int_div DrawMenu.iconSize 2))
         (int_sub (int_add y (int_div DrawMenu.iconSize 2)) 8) 2) ;;
  tft (setTextColor THEME_TEXT THEME_BG) ;;
  tft (drawCentreString (name a)
         (int_add x (int_div DrawMenu.iconSize 2))
         (int_add (int_add y DrawMenu.iconSize) 5) 1).

Definition drawMenu : M unit :=
  tft (fillScreen THEME_BG) ;;
  tft (fillRect 0 0 320 50 THEME_SURFACE) ;;
  tft (drawFastHLine 0 50 320 THEME_PRIMARY) ;;
  tft (setTextColor THEME_PRIMARY THEME_SURFACE) ;;
  tft (drawCentreString "MIDI CONTROLLER" 160 12 4) ;;
  tft (setTextColor THEME_TEXT_DIM THEME_SURFACE) ;;
  tft (drawCentreString "Cheap Yellow Display" 160 32 2) ;;
  tft (setTextColor THEME_TEXT_DIM THEME_SURFACE) ;;
  tft (drawString "v0.1" 280 37 1) ;;
  s <- get ;;
  (if negb (deviceConnected s)
   then tft (setTextColor THEME_ERROR THEME_BG) ;;
        tft (drawCentreString "BLE WAITING..." 160 210 2)
   else tft (fillRect 100 200 120 20 THEME_BG)) ;;
  tft (setTextColor
         (if deviceConnected s then THEME_SUCCESS else THEME_ERROR) THEME_BG) ;;
  tft (drawString (if deviceConnected s then "●" else "○") 290 55 2) ;;
  for_range (Z.to_nat (numApps s)) 0 drawMenu_icon.

(** The locals of [handleMenuTouch] and the rectangle it tests for icon
    [i]. *)
Module HandleMenuTouch.
Definition iconSize : Z := 40.
Definition spacing : Z := 8.
Definition cols : Z := 5.
Definition startX : Z :=
  int_div
    (int_sub 320 (int_add (int_mul cols iconSize)
                          (int_mul (int_sub cols 1) spacing))) 2.
Definition startY : Z := 65.
Definition cell (i : Z) : Z * Z * Z * Z :=
  let col := int_mod i cols in
  let row := int_div i cols in
  let x := int_add startX (int_mul col (int_add iconSize spacing)) in
  let y := int_add startY
             (int_mul row (int_add (int_add iconSize spacing) 15)) in
  (x, y, iconSize, iconSize).
End HandleMenuTouch.

(** ** Mode switching *)

Definition enterMode (m : AppMode) : M unit :=
  set_currentMode m ;;
  match m with
  | KEYBOARD => emit (DrawMode KEYBOARD)
  | SEQUENCER => emit (DrawMode SEQUENCER)
  | BOUNCING_BALL => emit (DrawMode BOUNCING_BALL)
  | PHYSICS_DROP => emit (DrawMode PHYSICS_DROP)
  | RANDOM_GENERATOR => emit (DrawMode RANDOM_GENERATOR)
  | XY_PAD => emit (DrawMode XY_PAD)
  | ARPEGGIATOR => emit (DrawMode ARPEGGIATOR)
  | GRID_PIANO => emit (DrawMode GRID_PIANO)
  | AUTO_CHORD => emit (DrawMode AUTO_CHORD)
  | LFO => emit (DrawMode LFO)
  | MENU => ret tt                       (* the switch has no such case *)
  end ;;
  updateStatus.

Definition exitToMenu : M unit :=
  set_currentMode MENU ;;
  stopAllModes ;;
  drawMenu ;;
  updateStatus.

(** The [for] loop of [handleMenuTouch], with [n] icons left to test from
    index [i]; a hit enters the mode and returns. *)
Fixpoint handleMenuTouch_for (n : nat) (i : Z) : M unit :=
  match n with
  | O => ret tt
  | S n' =>
      s <- get ;;
      let '(x, y, w, h) := HandleMenuTouch.cell i in
      if isButtonPressed (touch s) x y w h
      then a <- apps_at i ;; enterMode (mode a)
      else handleMenuTouch_for n' (i + 1)
  end.

Definition handleMenuTouch : M unit :=
  s <- get ;;
  emit (MenuHitTest (touch s)) ;;
  handleMenuTouch_for (Z.to_nat (numApps s)) 0.

(** ** The BLE connection callbacks ([class MIDICallbacks]) *)

Definition onConnect : M unit :=
  set_deviceConnected true ;;
  s <- get ;;
  when (AppMode_eqb (currentMode s) MENU) drawMenu ;;
  updateStatus.

Definition onDisconnect : M unit :=
  set_deviceConnected false ;;
  s <- get ;;
  when (AppMode_eqb (currentMode s) MENU) drawMenu ;;
  updateStatus ;;
  (* Stop all notes *)
  for_range 128 0 (fun i => sendMIDI 0x80 i 0).

(** ** [setup] and [loop] *)

(** [setup]: the bring-up of lines 112-162 is logged as the one call
    [HardwareInit]; it writes none of the globals of [State], and assigns
    [pCharacteristic], a global that only [sendMIDI] reads and that is not
    part of [State]. *)
Definition setup : M unit :=
  emit HardwareInit ;;
  emit (InitializeMode KEYBOARD) ;;
  emit (InitializeMode SEQUENCER) ;;
  emit (InitializeMode BOUNCING_BALL) ;;
  emit (InitializeMode RANDOM_GENERATOR) ;;
  emit (InitializeMode XY_PAD) ;;
  emit (InitializeMode ARPEGGIATOR) ;;
  emit (InitializeMode GRID_PIANO) ;;
  emit (InitializeMode AUTO_CHORD) ;;
  emit (InitializeMode LFO) ;;
  drawMenu ;;
  updateStatus.

(** Modelled from the spec: the per-tick functions of the modes
    ([handleKeyboardMode] and the like; the mode headers are not part of the
    sources).  A mode is handed the touch state, may call the Sink any
    number of times, and acts on the orchestrator only through its
    "return to menu" trigger, which calls [exitToMenu]. *)
Definition handleMode (m : AppMode) (act : ModeAction) : M unit :=
  s <- get ;;
  emit (HandleMode m (touch s)) ;;
  send_all (sends act) ;;
  when (returnToMenu act) exitToMenu.

(** One pass of [loop]: [raw] is what the touch controller reports on this
    tick and [act] what the active mode, if any, does with the tick. *)
Definition loop (raw : Sample) (act : ModeAction) : M unit :=
  updateTouch raw ;;
  s <- get ;;
  match currentMode s with
  | MENU => when (justPressed (touch s)) handleMenuTouch
  | KEYBOARD => handleMode KEYBOARD act
  | SEQUENCER => handleMode SEQUENCER act
  | BOUNCING_BALL => handleMode BOUNCING_BALL act
  | PHYSICS_DROP => handleMode PHYSICS_DROP act
  | RANDOM_GENERATOR => handleMode RANDOM_GENERATOR act
  | XY_PAD => handleMode XY_PAD act
  | ARPEGGIATOR => handleMode ARPEGGIATOR act
  | GRID_PIANO => handleMode GRID_PIANO act
  | AUTO_CHORD => handleMode AUTO_CHORD act
  | LFO => handleMode LFO act
  end ;;
  emit (Delay 20).

(** ** Executions

    After [setup] the firmware runs [loop] for ever; the BLE stack delivers
    [onConnect] and [onDisconnect] from its own context.  An execution is
    the sequence in which these calls take effect; a callback is taken as a
    whole, between two passes of [loop].  On the device a callback can
    also run in the middle of a pass; such interleavings are not among
    these executions, and what is proved of the display across connection
    events is not claimed for them. *)
Inductive Event : Set :=
  | Tick (raw : Sample) (act : ModeAction)
  | Connect
  | Disconnect.

Definition step (e : Event) : M unit :=
  match e with
  | Tick raw act => loop raw act
  | Connect => onConnect
  | Disconnect => onDisconnect
  end.

Fixpoint run (es : list Event) : M unit :=
  match es with
  | [] => ret tt
  | e :: es' => step e ;; run es'
  end.

Definition firmware (es : list Event) : M unit := setup ;; run es.

(** ** Reading a result and a log *)

Definition state_of {A} (r : option (A * State * list Effect)) : option State :=
  match r with
  | Some (_, s, _) => Some s
  | None => None
  end.

Definition log_of {A} (r : option (A * State * list Effect)) : list Effect :=
  match r with
  | Some (_, _, t) => t
  | None => []
  end.

(** The Sink calls of a log, as [(cmd, note, vel)], in order. *)
Fixpoint midi_of (t : list Effect) : list (Z * Z * Z) :=
  match t with
  | [] => []
  | SendMIDI c n v :: t' => (c, n, v) :: midi_of t'
  | _ :: t' => midi_of t'
  end.

(** A NoteOff for [note] on [channel] has status byte [0x80 | channel]. *)
Definition is_note_off (channel note : Z) (m : Z * Z * Z) : bool :=
  let '(c, n, _) := m in
  (c =? Z.lor 0x80 channel) && (n =? note).

Definition count_note_off (channel note : Z) (t : list Effect) : nat :=
  List.length (filter (is_note_off channel note) (midi_of t)).

(** The dispatch calls of a log: entries of [handleMenuTouch] and calls of
    the per-tick function of a mode, in order. *)
Fixpoint dispatches (t : list Effect) : list Effect :=
  match t with
  | [] => []
  | HandleMode m tch :: t' => HandleMode m tch :: dispatches t'
  | MenuHitTest tch :: t' => MenuHitTest tch :: dispatches t'
  | _ :: t' => dispatches t'
  end.

Definition is_tft (e : Effect) : bool :=
  match e with
  | Tft _ => true
  | _ => false
  end.

(** The rectangles a log paints with [fillRoundRect], in order. *)
Fixpoint painted_rects (t : list Effect) : list (Z * Z * Z * Z) :=
  match t with
  | [] => []
  | Tft (fillRoundRect x y w h _ _) :: t' => (x, y, w, h) :: painted_rects t'
  | _ :: t' => painted_rects t'
  end.

(** [i; i+1; ...; i+n-1], the values a [for] loop counter takes. *)
Fixpoint zrange (n : nat) (i : Z) : list Z :=
  match n with
  | O => []
  | S n' => i :: zrange n' (i + 1)
  end.

(** [0; 1; ...; n-1]. *)
Definition indices (n : Z) : list Z := zrange (Z.to_nat n) 0.

(** The globals are well formed when [numApps] does not exceed the number
    of elements of [apps]. *)
Definition well_formed (s : State) : Prop :=
  numApps s <= Z.of_nat (List.length (apps s)).

(** The centre of a rectangle. *)
Definition centre (r : Z * Z * Z * Z) : Z * Z :=
  let '(x, y, w, h) := r in (x + w / 2, y + h / 2).

Definition with_touch (s : State) (t : TouchState) : State :=
  {| deviceConnected := deviceConnected s; touch := t;
     currentMode := currentMode s; apps := apps s; numApps := numApps s |}.

Definition with_mode (s : State) (m : AppMode) : State :=
  {| deviceConnected := deviceConnected s; touch := touch s;
     currentMode := m; apps := apps s; numApps := numApps s |}.

Definition with_connected (s : State) (b : bool) : State :=
  {| deviceConnected := b; touch := touch s;
     currentMode := currentMode s; apps := apps s; numApps := numApps s |}.

(** Whether the touch point of [s] is inside the cell that
    [handleMenuTouch] tests for icon [i]. *)
Definition hits (s : State) (i : Z) : bool :=
  let '(x, y, w, h) := HandleMenuTouch.cell i in
  isButtonPressed (touch s) x y w h.

(** The lowest index among the first [numApps] icons whose cell holds the
    touch point of [s], or [None] when no cell does. *)
Definition lowest_hit (s : State) (r : option Z) : Prop :=
  match r with
  | Some i => 0 <= i < numApps s /\ hits s i = true /\
              forall j, 0 <= j < i -> hits s j = false
  | None => forall j, 0 <= j < numApps s -> hits s j = false
  end.

(** What [enterMode(m)] logs. *)
Definition enter_log (m : AppMode) : list Effect :=
  (if AppMode_eqb m MENU then [] else [DrawMode m]) ++ [UpdateStatus].

(** A tick on which the active mode does not ask for the menu. *)
Definition stays (e : Event) : bool :=
  match e with
  | Tick _ act => negb (returnToMenu act)
  | _ => false
  end.

(** The all-notes-off sweep, as the Sink sees it. *)
Definition sweep : list (Z * Z * Z) := map (fun n => (0x80, n, 0)) (indices 128).

(** ** The artwork of the icons: [drawAppGraphics]

    [drawAppGraphics(mode, x, y, iconSize)] only issues [tft] primitives,
    all in [THEME_BG]; here it yields them in call order.  The LFO case
    computes [(int)(6 * sin((i * 3.14159) / 4.0))] in floating point; that
    value is the parameter [wave i]. *)
Module Artwork.

Inductive Call : Set :=
  | fillRect (x y w h : Z) (c : Colour)
  | drawRect (x y w h : Z) (c : Colour)
  | drawCircle (x y r : Z) (c : Colour)
  | fillCircle (x y r : Z) (c : Colour)
  | drawFastHLine (x y w : Z) (c : Colour)
  | drawFastVLine (x y h : Z) (c : Colour)
  | drawLine (x0 y0 x1 y1 : Z) (c : Colour).

(** The [for] loop of the LFO case, with [n] segments left from [i]. *)
Fixpoint lfo_segments (wave : Z -> Z) (n : nat) (i : Z)
    (centerX centerY lastX lastY : Z) : list Call :=
  match n with
  | O => []
  | S n' =>
      let px := int_add (int_sub centerX 15) (int_mul i 2) in
      let py := int_add centerY (wave i) in
      drawLine lastX lastY px py THEME_BG
        :: lfo_segments wave n' (i + 1) centerX centerY px py
  end.

Definition drawAppGraphics (wave : Z -> Z) (m : AppMode) (x y iconSize : Z)
    : list Call :=
  match m with
  | KEYBOARD =>
      let keyWidth := 4 in
      let totalWidth := int_add (int_mul 5 keyWidth) (int_mul 4 1) in
      let startX := int_add x (int_div (int_sub iconSize totalWidth) 2) in
      map (fun i =>
             fillRect (int_add startX (int_mul i 5))
                      (int_sub (int_add y (int_div iconSize 2)) 6)
                      keyWidth 12 THEME_BG)
          (zrange 5 0)
  | SEQUENCER =>
      let gridW := 4 in let gridH := 4 in let gapX := 2 in let gapY := 2 in
      let totalW := int_add (int_mul 4 gridW) (int_mul 3 gapX) in
      let totalH := int_add (int_mul 3 gridH) (int_mul 2 gapY) in
      let startX := int_add x (int_div (int_sub iconSize totalW) 2) in
      let startY := int_add y (int_div (int_sub iconSize totalH) 2) in
      flat_map (fun r =>
        map (fun c =>
               fillRect (int_add startX (int_mul c (int_add gridW gapX)))
                        (int_add startY (int_mul r (int_add gridH gapY)))
                        gridW gridH THEME_BG)
            (zrange 4 0))
        (zrange 3 0)
  | BOUNCING_BALL =>
      let centerX := int_add x (int_div iconSize 2) in
      let centerY := int_add y (int_div iconSize 2) in
      [ drawCircle centerX centerY 12 THEME_BG;
        fillCircle (int_sub centerX 6) (int_sub centerY 4) 2 THEME_BG;
        fillCircle (int_add centerX 5) (int_add centerY 2) 2 THEME_BG;
        fillCircle (int_sub centerX 2) (int_add centerY 6) 2 THEME_BG ]
  | PHYSICS_DROP =>
      let centerX := int_add x (int_div iconSize 2) in
      let centerY := int_add y (int_div iconSize 2) in
      [ fillRect (int_sub centerX 10) (int_add centerY 8) 8 2 THEME_BG;
        fillRect (int_add centerX 4) (int_add centerY 4) 6 2 THEME_BG;
        fillCircle (int_sub centerX 6) (int_sub centerY 8) 2 THEME_BG;
        fillCircle (int_add centerX 2) (int_sub centerY 4) 2 THEME_BG;
        fillCircle (int_add centerX 8) centerY 2 THEME_BG ]
  | RANDOM_GENERATOR =>
      let centerX := int_add x (int_div iconSize 2) in
      let centerY := int_add y (int_div iconSize 2) in
      [ fillCircle (int_sub centerX 8) (int_sub centerY 6) 2 THEME_BG;
        fillCircle (int_sub centerX 1) (int_sub centerY 3) 2 THEME_BG;
        fillCircle (int_add centerX 7) (int_add centerY 1) 2 THEME_BG;
        fillCircle (int_sub centerX 4) (int_add centerY 6) 2 THEME_BG ]
  | XY_PAD =>
      let centerX := int_add x (int_div iconSize 2) in
      let centerY := int_add y (int_div iconSize 2) in
      let crossSize := 14 in
      [ drawFastHLine (int_sub centerX (int_div crossSize 2)) centerY
          crossSize THEME_BG;
        drawFastVLine centerX (int_sub centerY (int_div crossSize 2))
          crossSize THEME_BG;
        fillCircle centerX centerY 3 THEME_BG ]
  | ARPEGGIATOR =>
      let centerX := int_add x (int_div iconSize 2) in
      let centerY := int_add y (int_div iconSize 2) in
      map (fun i =>
             fillCircle (int_add (int_sub centerX 7) (int_mul i 5))
                        (int_sub (int_add centerY 5) (int_mul i 3))
                        2 THEME_BG)
          (zrange 4 0)
  | GRID_PIANO =>
      let cellW := 5 in let cellH := 4 in let gapX := 1 in let gapY := 2 in
      let totalW := int_add (int_mul 4 cellW) (int_mul 3 gapX) in
      let totalH := int_add (int_mul 3 cellH) (int_mul 2 gapY) in
      let startX := int_add x (int_div (int_sub iconSize totalW) 2) in
      let startY := int_add y (int_div (int_sub iconSize totalH) 2) in
      flat_map (fun r =>
        map (fun c =>
               drawRect (int_add startX (int_mul c (int_add cellW gapX)))
                        (int_add startY (int_mul r (int_add cellH gapY)))
                        cellW cellH THEME_BG)
            (zrange 4 0))
        (zrange 3 0)
  | AUTO_CHORD =>
      let centerX := int_add x (int_div iconSize 2) in
      let centerY := int_add y (int_div iconSize 2) in
      let lineWidth := 14 in
      [ fillRect (int_sub centerX (int_div lineWidth 2)) (int_add centerY 4)
          lineWidth 2 THEME_BG;
        fillRect (int_sub centerX (int_div lineWidth 2)) centerY
          lineWidth 2 THEME_BG;
        fillRect (int_sub centerX (int_div lineWidth 2)) (int_sub centerY 4)
          lineWidth 2 THEME_BG ]
  | LFO =>
      let centerX := int_add x (int_div iconSize 2) in
      let centerY := int_add y (int_div iconSize 2) in
      let lastX := int_sub centerX 15 in
      let lastY := centerY in
      lfo_segments wave 15 1 centerX centerY lastX lastY
  | MENU => []                           (* the switch has no such case *)
  end.

(** The smallest upright box of pixels that holds what a primitive
    paints, as its first and last column and row
    [(xmin, ymin, xmax, ymax)], all four included: a rectangle or a line of
    width [w] from [x] ends on column [x + w - 1]; a circle of radius [r]
    reaches [r] pixels from its centre; a line paints both its end
    points. *)
Definition extent (c : Call) : Z * Z * Z * Z :=
  match c with
  | fillRect x y w h _ => (x, y, x + w - 1, y + h - 1)
  | drawRect x y w h _ => (x, y, x + w - 1, y + h - 1)
  | drawCircle x y r _ => (x - r, y - r, x + r, y + r)
  | fillCircle x y r _ => (x - r, y - r, x + r, y + r)
  | drawFastHLine x y w _ => (x, y, x + w - 1, y)
  | drawFastVLine x y h _ => (x, y, x, y + h - 1)
  | drawLine x0 y0 x1 y1 _ =>
      (Z.min x0 x1, Z.min y0 y1, Z.max x0 x1, Z.max y0 y1)
  end.

(** Whether a primitive stays on the pixels of the square
    [(x, y, size, size)]: the columns [x .. x + size - 1] and the rows
    [y .. y + size - 1]. *)
Definition inside (x y size : Z) (c : Call) : bool :=
  let '(xmin, ymin, xmax, ymax) := extent c in
  (x <=? xmin) && (xmax <=? x + size - 1)
  && (y <=? ymin) && (ymax <=? y + size - 1).

Definition colour_of (c : Call) : Colour :=
  match c with
  | fillRect _ _ _ _ k | drawRect _ _ _ _ k | drawCircle _ _ _ k
  | fillCircle _ _ _ k | drawFastHLine _ _ _ k | drawFastVLine _ _ _ k
  | drawLine _ _ _ _ k => k
  end.

End Artwork.

(** ** Reading more off a log *)

(** The full-screen paints of a log, in order: [drawMenu] starts with
    [fillScreen] and paints the menu; [draw<M>Mode()] paints the screen of
    mode M. *)
Fixpoint screens (t : list Effect) : list AppMode :=
  match t with
  | [] => []
  | Tft (fillScreen _) :: t' => MENU :: screens t'
  | DrawMode m :: t' => m :: screens t'
  | _ :: t' => screens t'
  end.

(** The connection glyphs a log draws at the status position
    [(290, 55)], in order. *)
Fixpoint status_glyphs (t : list Effect) : list string :=
  match t with
  | [] => []
  | Tft (drawString g gx gy font) :: t' =>
      if (gx =? 290) && (gy =? 55) && (font =? 2)
      then g :: status_glyphs t'
      else status_glyphs t'
  | _ :: t' => status_glyphs t'
  end.

(** The icons a log paints: mode and position of each [drawAppGraphics]
    call, in order. *)
Fixpoint drawn_icons (t : list Effect) : list (AppMode * (Z * Z * Z * Z)) :=
  match t with
  | [] => []
  | Tft (drawAppGraphics m x y sz) :: t' => (m, (x, y, sz, sz)) :: drawn_icons t'
  | _ :: t' => drawn_icons t'
  end.

(** The modes whose [initialize<M>Mode()] a log calls, in order. *)
Fixpoint initialised (t : list Effect) : list AppMode :=
  match t with
  | [] => []
  | InitializeMode m :: t' => m :: initialised t'
  | _ :: t' => initialised t'
  end.

(** The [tft] calls that the loop of [drawMenu] makes for an icon. *)
Definition is_icon_call (e : Effect) : bool :=
  match e with
  | Tft (fillRoundRect _ _ _ _ _ _) | Tft (drawRoundRect _ _ _ _ _ _)
  | Tft (drawAppGraphics _ _ _ _) | Tft (setTextColor _ _)
  | Tft (drawCentreString _ _ _ _) => true
  | _ => false
  end.

(** The cell that holds the point [(px, py)], by division instead of by
    search: column [(px - 44) / 48], row [(py - 65) / 63], provided the
    point is not in a gap or a margin. *)
Definition grid_index (px py : Z) : option Z :=
  let dx := px - 44 in
  let dy := py - 65 in
  if (0 <=? dx) && (0 <=? dy) && (dx / 48 <? 5)
     && (dx mod 48 <=? 40) && (dy mod 63 <=? 40)
  then Some (5 * (dy / 63) + dx / 48)
  else None.

(** The index, counted from [i], of the first rectangle of [rs] that
    contains the point [(px, py)]. *)
Fixpoint first_containing (i : Z) (rs : list (Z * Z * Z * Z)) (px py : Z)
    : option Z :=
  match rs with
  | [] => None
  | r :: rs' =>
      if rect_contains r px py then Some i
      else first_containing (i + 1) rs' px py
  end.

Definition is_tick (e : Event) : bool :=
  match e with
  | Tick _ _ => true
  | _ => false
  end.

(** What [handleMenuTouch] does with the lowest hit [r]. *)
Definition touch_outcome (s : State) (r : option Z)
    : option (unit * State * list Effect) :=
  match r with
  | None => Some (tt, s, [MenuHitTest (touch s)])
  | Some i =>
      match nth_error (apps s) (Z.to_nat i) with
      | Some a => Some (tt, with_mode s (mode a),
                        MenuHitTest (touch s) :: enter_log (mode a))
      | None => None
      end
  end.

(** The value of [deviceConnected] after the events [es], from [b]: that of
    the last connection event. *)
Fixpoint connection_after (es : list Event) (b : bool) : bool :=
  match es with
  | [] => b
  | Connect :: es' => connection_after es' true
  | Disconnect :: es' => connection_after es' false
  | Tick _ _ :: es' => connection_after es' b
  end.

(** The Sink calls a mode makes on a tick, as log entries. *)
Definition send_effect (m : Z * Z * Z) : Effect :=
  let '(c, n, v) := m in SendMIDI c n v.

(** Whether two rectangles [(x, y, w, h)] have a pixel in common. *)
Definition rects_overlap (r1 r2 : Z * Z * Z * Z) : bool :=
  let '(x1, y1, w1, h1) := r1 in
  let '(x2, y2, w2, h2) := r2 in
  (x1 <? x2 + w2) && (x2 <? x1 + w1) && (y1 <? y2 + h2) && (y2 <? y1 + h1).

(** * Properties *)

(** ** The monad *)

Lemma bind_some {A B} (m : M A) (k : A -> M B) s a s1 t1 b s2 t2 :
  m s = Some (a, s1, t1) ->
  k a s1 = Some (b, s2, t2) ->
  bind m k s = Some (b, s2, t1 ++ t2).
Proof. intros Hm Hk. unfold bind. rewrite Hm, Hk. reflexivity. Qed.

Lemma midi_of_app t1 t2 : midi_of (t1 ++ t2) = midi_of t1 ++ midi_of t2.
Proof.
  induction t1 as [|e t1 IH]; [reflexivity|].
  destruct e; cbn [midi_of app]; rewrite IH; reflexivity.
Qed.

Lemma painted_rects_app t1 t2 :
  painted_rects (t1 ++ t2) = painted_rects t1 ++ painted_rects t2.
Proof.
  induction t1 as [|e t1 IH]; [reflexivity|].
  destruct e as [d| | | | | | | | |]; try destruct d;
    cbn [painted_rects app]; rewrite IH; reflexivity.
Qed.

Lemma dispatches_app t1 t2 :
  dispatches (t1 ++ t2) = dispatches t1 ++ dispatches t2.
Proof.
  induction t1 as [|e t1 IH]; [reflexivity|].
  destruct e; cbn [dispatches app]; rewrite IH; reflexivity.
Qed.

Lemma tft_only_midi t : forallb is_tft t = true -> midi_of t = [].
Proof.
  induction t as [|e t IH]; [reflexivity|].
  destruct e; cbn; try discriminate. exact IH.
Qed.

Lemma tft_only_dispatches t : forallb is_tft t = true -> dispatches t = [].
Proof.
  induction t as [|e t IH]; [reflexivity|].
  destruct e; cbn; try discriminate. exact IH.
Qed.

Lemma apps_at_ok s i :
  0 <= i < Z.of_nat (List.length (apps s)) ->
  exists a, nth_error (apps s) (Z.to_nat i) = Some a /\
            apps_at i s = Some (a, s, []).
Proof.
  intros Hi. unfold apps_at.
  destruct (Z.ltb_spec i 0) as [Hneg|_]; [lia|].
  destruct (nth_error (apps s) (Z.to_nat i)) as [a|] eqn:E.
  - exists a. split; reflexivity.
  - apply nth_error_None in E. lia.
Qed.

(** ** The sweep loop *)

Lemma sweep_loop n i s :
  for_range n i (fun k => sendMIDI 0x80 k 0) s
  = Some (tt, s, map (fun k => SendMIDI 0x80 k 0) (zrange n i)).
Proof.
  revert i. induction n as [|n IH]; intros i; [reflexivity|].
  cbn [for_range zrange map].
  rewrite (bind_some _ _ s tt s [SendMIDI 0x80 i 0] tt s
             (map (fun k => SendMIDI 0x80 k 0) (zrange n (i + 1))));
    [reflexivity|reflexivity|apply IH].
Qed.

Lemma midi_of_sends c v l :
  midi_of (map (fun k => SendMIDI c k v) l) = map (fun k => (c, k, v)) l.
Proof. induction l as [|k l IH]; cbn; [|rewrite IH]; reflexivity. Qed.

(** ** [drawMenu] *)

Lemma drawMenu_icon_ok s i :
  0 <= i < Z.of_nat (List.length (apps s)) ->
  exists t, drawMenu_icon i s = Some (tt, s, t) /\
            forallb is_tft t = true /\
            painted_rects t = [DrawMenu.cell i].
Proof.
  intros Hi. destruct (apps_at_ok s i Hi) as (a & _ & Ha).
  unfold drawMenu_icon.
  destruct (DrawMenu.cell i) as [[[x y] w] h].
  unfold bind at 1. rewrite Ha.
  eexists. split; [reflexivity|]. split; reflexivity.
Qed.

Lemma drawMenu_loop_ok s n i :
  0 <= i ->
  i + Z.of_nat n <= Z.of_nat (List.length (apps s)) ->
  exists t, for_range n i drawMenu_icon s = Some (tt, s, t) /\
            forallb is_tft t = true /\
            painted_rects t = map DrawMenu.cell (zrange n i).
Proof.
  revert i. induction n as [|n IH]; intros i H0 Hn.
  - exists []. repeat split.
  - destruct (drawMenu_icon_ok s i) as (t1 & E1 & M1 & P1); [lia|].
    destruct (IH (i + 1)) as (t2 & E2 & M2 & P2); [lia|lia|].
    exists (t1 ++ t2). cbn [for_range zrange map]. split.
    + erewrite bind_some; [reflexivity|exact E1|exact E2].
    + rewrite forallb_app, painted_rects_app, M1, M2, P1, P2.
      split; reflexivity.
Qed.

Lemma drawMenu_ok s :
  well_formed s ->
  exists t, drawMenu s = Some (tt, s, t) /\
            forallb is_tft t = true /\
            painted_rects t = map DrawMenu.cell (indices (numApps s)).
Proof.
  intros Hwf.
  destruct (drawMenu_loop_ok s (Z.to_nat (numApps s)) 0) as (t & E & Mt & Pt);
    [lia|unfold well_formed in Hwf; lia|].
  unfold drawMenu, indices.
  destruct (deviceConnected s) eqn:Hc.
  all: eexists; split;
    [ unfold bind, tft, emit, get; rewrite Hc; cbn [negb]; rewrite E;
      reflexivity
    | cbn [app forallb is_tft andb painted_rects]; rewrite Mt, Pt;
      split; reflexivity ].
Qed.

(** ** The connection callbacks *)

Lemma when_menu_drawMenu s :
  well_formed s ->
  exists d, when (AppMode_eqb (currentMode s) MENU) drawMenu s = Some (tt, s, d) /\
            midi_of d = [] /\
            dispatches d = [] /\
            (currentMode s <> MENU -> d = []).
Proof.
  intros Hwf. unfold AppMode_eqb.
  destruct (AppMode_eq_dec (currentMode s) MENU) as [E|E]; cbn [when].
  - destruct (drawMenu_ok s Hwf) as (d & Hd & Hm & _).
    exists d. split; [exact Hd|].
    split; [apply tft_only_midi, Hm|].
    split; [apply tft_only_dispatches, Hm|congruence].
  - exists []. repeat split.
Qed.

Lemma onConnect_spec s :
  well_formed s ->
  exists d, midi_of d = [] /\
            onConnect s = Some (tt, with_connected s true, d ++ [UpdateStatus]).
Proof.
  intros Hwf.
  destruct (when_menu_drawMenu (with_connected s true) Hwf)
    as (d & Hd & Hm & _ & _).
  exists d. split; [exact Hm|].
  unfold onConnect, bind, set_deviceConnected, get, updateStatus, emit.
  fold (with_connected s true). rewrite Hd. reflexivity.
Qed.

Lemma onDisconnect_spec s :
  well_formed s ->
  exists d, midi_of d = [] /\
            onDisconnect s
            = Some (tt, with_connected s false,
                    d ++ UpdateStatus
                      :: map (fun k => SendMIDI 0x80 k 0) (indices 128)).
Proof.
  intros Hwf.
  destruct (when_menu_drawMenu (with_connected s false) Hwf)
    as (d & Hd & Hm & _ & _).
  exists d. split; [exact Hm|].
  unfold onDisconnect.
  unfold bind at 1. unfold set_deviceConnected. fold (with_connected s false).
  unfold bind at 1. unfold get.
  unfold bind at 1. rewrite Hd.
  unfold bind at 1. unfold updateStatus, emit.
  rewrite sweep_loop. reflexivity.
Qed.

Lemma onDisconnect_midi s :
  well_formed s -> midi_of (log_of (onDisconnect s)) = sweep.
Proof.
  intros Hwf. destruct (onDisconnect_spec s Hwf) as (d & Hm & E).
  rewrite E. cbn [log_of]. rewrite midi_of_app, Hm. cbn [app midi_of].
  apply midi_of_sends.
Qed.

Lemma onConnect_midi s :
  well_formed s -> midi_of (log_of (onConnect s)) = [].
Proof.
  intros Hwf. destruct (onConnect_spec s Hwf) as (d & Hm & E).
  rewrite E. cbn [log_of]. rewrite midi_of_app, Hm. reflexivity.
Qed.

(** How often a NoteOff for [note] on channel 0 occurs in a run of the
    sweep. *)
Lemma count_in_sweep note n i :
  List.length
    (filter (is_note_off 0 note) (map (fun k => (0x80, k, 0)) (zrange n i)))
  = if (i <=? note) && (note <? i + Z.of_nat n) then 1%nat else 0%nat.
Proof.
  revert i. induction n as [|n IH]; intros i.
  - cbn. destruct (Z.leb_spec i note), (Z.ltb_spec note (i + 0)%Z);
      cbn; try reflexivity; lia.
  - cbn [zrange map filter]. rewrite Nat2Z.inj_succ.
    replace (is_note_off 0 note (0x80, i, 0)) with (i =? note) by reflexivity.
    destruct (Z.eqb_spec i note) as [->|Hne]; cbn [List.length]; rewrite IH.
    + destruct (Z.leb_spec (note + 1) note); [lia|]. cbn [andb].
      destruct (Z.leb_spec note note); [|lia].
      destruct (Z.ltb_spec note (note + Z.succ (Z.of_nat n))); [|lia].
      reflexivity.
    + destruct (Z.leb_spec (i + 1) note), (Z.leb_spec i note),
        (Z.ltb_spec note (i + 1 + Z.of_nat n)),
        (Z.ltb_spec note (i + Z.succ (Z.of_nat n)));
        cbn [andb]; try reflexivity; lia.
Qed.

Lemma lor_0x80_channel ch : 0 < ch < 16 -> Z.lor 0x80 ch <> 0x80.
Proof.
  intros H.
  assert (Hc : ch = 1 \/ ch = 2 \/ ch = 3 \/ ch = 4 \/ ch = 5 \/ ch = 6 \/
               ch = 7 \/ ch = 8 \/ ch = 9 \/ ch = 10 \/ ch = 11 \/
               ch = 12 \/ ch = 13 \/ ch = 14 \/ ch = 15) by lia.
  repeat (destruct Hc as [->|Hc]; [discriminate|]). subst. discriminate.
Qed.

Lemma no_other_channel_in_sweep ch note l :
  Z.lor 0x80 ch <> 0x80 ->
  filter (is_note_off ch note) (map (fun k => (0x80, k, 0)) l) = [].
Proof.
  intros H. induction l as [|k l IH]; [reflexivity|].
  cbn [map filter is_note_off].
  destruct (Z.eqb_spec 0x80 (Z.lor 0x80 ch)) as [E|_]; [congruence|].
  cbn [andb]. exact IH.
Qed.

(** C1, as stated, fails: the sweep that [onDisconnect] runs from a
    connected state has no NoteOff on a channel other than 0. *)
Lemma disconnect_sweep_not_every_channel :
  ~ (forall s ch note,
        well_formed s -> deviceConnected s = true ->
        0 <= ch < 16 -> 0 <= note < 128 ->
        count_note_off ch note (log_of (onDisconnect s)) = 1%nat).
Proof.
  intros H.
  specialize (H (with_connected initial_state true) 1 60).
  assert (Hwf : well_formed (with_connected initial_state true))
    by (unfold well_formed; cbn; lia).
  specialize (H Hwf eq_refl ltac:(lia) ltac:(lia)).
  vm_compute in H. discriminate.
Qed.

(** C1 (amended): a disconnect delivered while connected, in any mode,
    clears [deviceConnected] and hands the Sink exactly the 128 events of
    [sweep]: [(0x80, n, 0)] for n = 0..127, that is one NoteOff with
    velocity 0 for each note number on channel 0, and none on any other
    channel. *)
Theorem disconnect_sweeps_channel_0 (s : State) :
  well_formed s ->
  deviceConnected s = true ->
  exists s' t,
    onDisconnect s = Some (tt, s', t) /\
    deviceConnected s' = false /\
    currentMode s' = currentMode s /\
    midi_of t = sweep /\
    List.length (midi_of t) = 128%nat /\
    (forall note, 0 <= note < 128 -> count_note_off 0 note t = 1%nat) /\
    (forall ch note, 0 < ch < 16 -> count_note_off ch note t = 0%nat).
Proof.
  intros Hwf _.
  pose proof (onDisconnect_midi s Hwf) as Hm.
  destruct (onDisconnect_spec s Hwf) as (d & _ & E).
  rewrite E in Hm. cbn [log_of] in Hm.
  eexists _, _. split; [exact E|].
  split; [reflexivity|]. split; [reflexivity|].
  split; [exact Hm|].
  unfold count_note_off. rewrite Hm. unfold sweep, indices.
  split; [reflexivity|]. split.
  - intros note Hn. rewrite count_in_sweep.
    destruct (Z.leb_spec 0 note); [|lia].
    destruct (Z.ltb_spec note (0 + Z.of_nat (Z.to_nat 128))); [reflexivity|lia].
  - intros ch note Hch.
    rewrite no_other_channel_in_sweep; [reflexivity|].
    apply lor_0x80_channel, Hch.
Qed.

Lemma disconnect_sweeps_channel_0_witness :
  exists s' t,
    onDisconnect (with_connected initial_state true) = Some (tt, s', t) /\
    deviceConnected s' = false /\
    currentMode s' = currentMode (with_connected initial_state true) /\
    midi_of t = sweep /\
    List.length (midi_of t) = 128%nat /\
    (forall note, 0 <= note < 128 -> count_note_off 0 note t = 1%nat) /\
    (forall ch note, 0 < ch < 16 -> count_note_off ch note t = 0%nat).
Proof.
  apply (disconnect_sweeps_channel_0 (with_connected initial_state true)).
  - unfold well_formed. cbn. lia.
  - reflexivity.
Defined.

Lemma well_formed_initial : well_formed initial_state.
Proof. unfold well_formed. cbn. lia. Qed.

Lemma well_formed_with_connected s b :
  well_formed s -> well_formed (with_connected s b).
Proof. intros H. exact H. Qed.

(** C2, as stated, fails: a disconnect delivered while already disconnected
    runs the sweep again. *)
Lemma duplicate_disconnect_sweeps_again :
  ~ (forall s,
        well_formed s -> deviceConnected s = false ->
        state_of (onDisconnect s) = Some s /\
        midi_of (log_of (onDisconnect s)) = []).
Proof.
  intros H.
  destruct (H initial_state well_formed_initial eq_refl) as [_ Hm].
  rewrite (onDisconnect_midi _ well_formed_initial) in Hm.
  discriminate Hm.
Qed.

(** C2 (amended): a connect delivered while connected and a disconnect
    delivered while disconnected leave [deviceConnected] as it was, and
    with it the other globals that the sketch's functions write
    ([currentMode], [touch], [apps], [numApps]); a connect hands nothing
    to the Sink, in whatever state it is delivered; a disconnect runs the
    whole sweep, in whatever state it is delivered. *)
Theorem duplicate_connection_events (s : State) :
  well_formed s ->
  state_of (onConnect (with_connected s true)) = Some (with_connected s true) /\
  state_of (onDisconnect (with_connected s false))
    = Some (with_connected s false) /\
  midi_of (log_of (onConnect s)) = [] /\
  midi_of (log_of (onDisconnect s)) = sweep /\
  midi_of (log_of (onConnect (with_connected s true))) = [] /\
  midi_of (log_of (onDisconnect (with_connected s false))) = sweep /\
  midi_of (log_of (onDisconnect (with_connected s true))) = sweep.
Proof.
  intros Hwf.
  pose proof (well_formed_with_connected s true Hwf) as Ht.
  pose proof (well_formed_with_connected s false Hwf) as Hf.
  destruct (onConnect_spec _ Ht) as (d1 & _ & E1).
  destruct (onDisconnect_spec _ Hf) as (d2 & _ & E2).
  split; [rewrite E1; reflexivity|].
  split; [rewrite E2; reflexivity|].
  split; [apply onConnect_midi, Hwf|].
  split; [apply onDisconnect_midi, Hwf|].
  split; [apply onConnect_midi, Ht|].
  split; [apply onDisconnect_midi, Hf|apply onDisconnect_midi, Ht].
Qed.

Lemma duplicate_connection_events_witness :
  state_of (onConnect (with_connected initial_state true))
    = Some (with_connected initial_state true) /\
  state_of (onDisconnect (with_connected initial_state false))
    = Some (with_connected initial_state false) /\
  midi_of (log_of (onConnect initial_state)) = [] /\
  midi_of (log_of (onDisconnect initial_state)) = sweep /\
  midi_of (log_of (onConnect (with_connected initial_state true))) = [] /\
  midi_of (log_of (onDisconnect (with_connected initial_state false))) = sweep /\
  midi_of (log_of (onDisconnect (with_connected initial_state true))) = sweep.
Proof.
  apply (duplicate_connection_events initial_state).
  unfold well_formed. cbn. lia.
Defined.

Lemma zrange_nth n i k :
  nth_error (zrange n i) k
  = if (k <? n)%nat then Some (i + Z.of_nat k) else None.
Proof.
  revert i k. induction n as [|n IH]; intros i k.
  - destruct k; reflexivity.
  - destruct k as [|k]; cbn [zrange nth_error].
    + cbn. f_equal. lia.
    + rewrite IH. change (S k <? S n)%nat with (k <? n)%nat.
      destruct (k <? n)%nat; [f_equal; lia|reflexivity].
Qed.

(** C10: the Sink calls of a disconnect are, in this order, one
    [sendMIDI(0x80, k, 0)] for k = 0, 1, ..., 127 and nothing else: the
    k-th call (from 0) is the NoteOff of note k on channel 0 with velocity
    0, and there is no 128th.  A connect makes no Sink call. *)
Theorem sweep_in_note_order (s : State) (k : nat) :
  well_formed s ->
  onDisconnect s <> None /\
  onConnect s <> None /\
  nth_error (midi_of (log_of (onDisconnect s))) k
    = (if (k <? 128)%nat then Some (0x80, Z.of_nat k, 0) else None) /\
  midi_of (log_of (onConnect s)) = [].
Proof.
  intros Hwf.
  destruct (onConnect_spec _ Hwf) as (d1 & _ & E1).
  destruct (onDisconnect_spec _ Hwf) as (d2 & _ & E2).
  split; [rewrite E2; discriminate|].
  split; [rewrite E1; discriminate|].
  split; [|apply onConnect_midi, Hwf].
  rewrite (onDisconnect_midi s Hwf). unfold sweep, indices.
  rewrite nth_error_map, zrange_nth.
  change (Z.to_nat 128) with 128%nat.
  destruct (k <? 128)%nat; reflexivity.
Qed.

Lemma sweep_in_note_order_witness :
  onDisconnect initial_state <> None /\
  onConnect initial_state <> None /\
  nth_error (midi_of (log_of (onDisconnect initial_state))) 60
    = (if (60 <? 128)%nat then Some (0x80, Z.of_nat 60, 0) else None) /\
  midi_of (log_of (onConnect initial_state)) = [].
Proof.
  apply (sweep_in_note_order initial_state 60).
  unfold well_formed. cbn. lia.
Defined.

(** ** The menu grid *)

Lemma enterMode_spec m s :
  enterMode m s = Some (tt, with_mode s m, enter_log m).
Proof. destruct m; reflexivity. Qed.

Lemma handleMenuTouch_for_step n k s :
  handleMenuTouch_for (S n) k s
  = if hits s k then (a <- apps_at k ;; enterMode (mode a)) s
    else handleMenuTouch_for n (k + 1) s.
Proof.
  cbn [handleMenuTouch_for]. unfold hits.
  destruct (HandleMenuTouch.cell k) as [[[x y] w] h].
  unfold bind at 1. unfold get.
  destruct (isButtonPressed (touch s) x y w h).
  - destruct ((a <- apps_at k ;; enterMode (mode a)) s) as [[[[] s2] t2]|];
      reflexivity.
  - destruct (handleMenuTouch_for n (k + 1) s) as [[[[] s2] t2]|]; reflexivity.
Qed.

Lemma handleMenuTouch_for_first n k s i :
  k <= i < k + Z.of_nat n ->
  (forall j, k <= j < i -> hits s j = false) ->
  hits s i = true ->
  handleMenuTouch_for n k s = (a <- apps_at i ;; enterMode (mode a)) s.
Proof.
  revert k. induction n as [|n IH]; intros k Hk Hlow Hi; [lia|].
  rewrite handleMenuTouch_for_step.
  destruct (Z.eq_dec k i) as [->|Hne].
  - rewrite Hi. reflexivity.
  - rewrite (Hlow k) by lia. apply IH; [lia| |exact Hi].
    intros j Hj. apply Hlow. lia.
Qed.

Lemma handleMenuTouch_for_none n k s :
  (forall j, k <= j < k + Z.of_nat n -> hits s j = false) ->
  handleMenuTouch_for n k s = Some (tt, s, []).
Proof.
  revert k. induction n as [|n IH]; intros k Hnone; [reflexivity|].
  rewrite handleMenuTouch_for_step, (Hnone k) by lia.
  apply IH. intros j Hj. apply Hnone. lia.
Qed.

Lemma handleMenuTouch_unfold s :
  handleMenuTouch s
  = match handleMenuTouch_for (Z.to_nat (numApps s)) 0 s with
    | Some (_, s', t) => Some (tt, s', MenuHitTest (touch s) :: t)
    | None => None
    end.
Proof.
  unfold handleMenuTouch, bind, get, emit.
  destruct (handleMenuTouch_for (Z.to_nat (numApps s)) 0 s)
    as [[[[] s'] t]|]; reflexivity.
Qed.

Lemma enter_icon_spec s i :
  0 <= i < Z.of_nat (List.length (apps s)) ->
  exists a, nth_error (apps s) (Z.to_nat i) = Some a /\
            (a <- apps_at i ;; enterMode (mode a)) s
            = Some (tt, with_mode s (mode a), enter_log (mode a)).
Proof.
  intros Hi. destruct (apps_at_ok s i Hi) as (a & Hn & Ha).
  exists a. split; [exact Hn|].
  unfold bind. rewrite Ha, enterMode_spec. reflexivity.
Qed.

(** Some index is the lowest hit, or there is none. *)
Lemma lowest_hit_exists s : exists r, lowest_hit s r.
Proof.
  assert (H : forall n : nat,
             (exists i, 0 <= i < Z.of_nat n /\ hits s i = true /\
                        forall j, 0 <= j < i -> hits s j = false) \/
             (forall j, 0 <= j < Z.of_nat n -> hits s j = false)).
  { induction n as [|n [(i & Hi & Hh & Hl)|Hnone]].
    - right. intros j Hj. lia.
    - left. exists i. repeat split; try assumption; lia.
    - destruct (hits s (Z.of_nat n)) eqn:E.
      + left. exists (Z.of_nat n). repeat split; try assumption; lia.
      + right. intros j Hj.
        destruct (Z.eq_dec j (Z.of_nat n)) as [->|Hne]; [exact E|].
        apply Hnone. lia. }
  destruct (H (Z.to_nat (numApps s))) as [(i & Hi & Hh & Hl)|Hnone].
  - exists (Some i). cbn. repeat split; try assumption; lia.
  - exists None. cbn. intros j Hj. apply Hnone. lia.
Qed.

Lemma handleMenuTouch_lowest_hit s r :
  well_formed s ->
  lowest_hit s r ->
  match r with
  | Some i =>
      exists a, nth_error (apps s) (Z.to_nat i) = Some a /\
                handleMenuTouch s
                = Some (tt, with_mode s (mode a),
                        MenuHitTest (touch s) :: enter_log (mode a))
  | None => handleMenuTouch s = Some (tt, s, [MenuHitTest (touch s)])
  end.
Proof.
  intros Hwf Hr. unfold well_formed in Hwf.
  rewrite handleMenuTouch_unfold.
  destruct r as [i|]; cbn [lowest_hit] in Hr.
  - destruct Hr as (Hi & Hh & Hl).
    destruct (enter_icon_spec s i) as (a & Hn & Ha); [lia|].
    exists a. split; [exact Hn|].
    rewrite (handleMenuTouch_for_first _ 0 s i); [|lia| |exact Hh].
    + rewrite Ha. reflexivity.
    + intros j Hj. apply Hl. lia.
  - rewrite handleMenuTouch_for_none; [reflexivity|].
    intros j Hj. apply Hr. lia.
Qed.

(** C5: [handleMenuTouch] walks the registry in index order and enters the
    mode of the lowest-index entry whose cell holds the touch point, and
    of no other; when no cell holds the point it changes no global and
    draws nothing, so the orchestrator stays where it was. *)
Theorem menu_touch_enters_lowest_hit (s : State) (r : option Z) :
  well_formed s ->
  lowest_hit s r ->
  match r with
  | Some i =>
      exists a, nth_error (apps s) (Z.to_nat i) = Some a /\
                handleMenuTouch s
                = Some (tt, with_mode s (mode a),
                        MenuHitTest (touch s) :: enter_log (mode a))
  | None => handleMenuTouch s = Some (tt, s, [MenuHitTest (touch s)])
  end.
Proof. apply handleMenuTouch_lowest_hit. Qed.

Lemma forallb_zrange (P : Z -> bool) n k :
  forallb P (zrange n k) = true ->
  forall j, k <= j < k + Z.of_nat n -> P j = true.
Proof.
  revert k. induction n as [|n IH]; intros k H j Hj; [lia|].
  cbn [zrange forallb] in H. apply andb_true_iff in H as [Hk Hrest].
  destruct (Z.eq_dec j k) as [->|Hne]; [exact Hk|].
  apply (IH (k + 1) Hrest). lia.
Qed.

Lemma menu_touch_enters_lowest_hit_witness :
  let s := with_touch initial_state (mkTouch 160 148 true true) in
  exists a, nth_error (apps s) (Z.to_nat 7) = Some a /\
            handleMenuTouch s
            = Some (tt, with_mode s (mode a),
                    MenuHitTest (touch s) :: enter_log (mode a)).
Proof.
  intros s.
  apply (menu_touch_enters_lowest_hit s (Some 7)).
  - unfold well_formed. cbn. lia.
  - cbn [lowest_hit]. split; [cbn; lia|]. split; [reflexivity|].
    intros j Hj. apply negb_true_iff.
    apply (forallb_zrange (fun k => negb (hits s k)) 7 0); [reflexivity|lia].
Defined.

(** C++ [int] arithmetic agrees with the integers where nothing
    overflows. *)
Lemma wrap_int_small z : - 2 ^ 31 <= z < 2 ^ 31 -> wrap_int z = z.
Proof.
  intros H. unfold wrap_int.
  rewrite Z.mod_small; lia.
Qed.

(** The tested cell of icon [i], in closed form. *)
Lemma cell_closed_form i :
  0 <= i < 2 ^ 24 ->
  HandleMenuTouch.cell i = (44 + 48 * (i mod 5), 65 + 63 * (i / 5), 40, 40).
Proof.
  intros Hi.
  unfold HandleMenuTouch.cell, int_mod, int_div.
  change HandleMenuTouch.startX with 44.
  change HandleMenuTouch.startY with 65.
  change (int_add HandleMenuTouch.iconSize HandleMenuTouch.spacing) with 48.
  change (int_add 48 15) with 63.
  change HandleMenuTouch.cols with 5.
  change HandleMenuTouch.iconSize with 40.
  rewrite Z.rem_mod_nonneg, Z.quot_div_nonneg by lia.
  pose proof (Z.mod_pos_bound i 5 ltac:(lia)) as Hm.
  assert (Hd : 0 <= i / 5 < 2 ^ 24).
  { split; [apply Z.div_pos; lia|].
    apply Z.div_lt_upper_bound; lia. }
  unfold int_add, int_mul.
  rewrite (wrap_int_small (i mod 5 * 48)) by lia.
  rewrite (wrap_int_small (i / 5 * 63)) by lia.
  rewrite !wrap_int_small by lia.
  rewrite (Z.mul_comm (i mod 5)), (Z.mul_comm (i / 5)). reflexivity.
Qed.

Lemma rect_contains_iff x y w h px py :
  rect_contains (x, y, w, h) px py = true <->
  x <= px <= x + w /\ y <= py <= y + h.
Proof.
  unfold rect_contains.
  rewrite !andb_true_iff, !Z.leb_le. lia.
Qed.

(** Two different cells share no point, edges included. *)
Lemma cells_disjoint i j qx qy :
  0 <= i < 2 ^ 24 -> 0 <= j < 2 ^ 24 -> j <> i ->
  rect_contains (HandleMenuTouch.cell i) qx qy = true ->
  rect_contains (HandleMenuTouch.cell j) qx qy = false.
Proof.
  intros Hi Hj Hne Hin.
  destruct (rect_contains (HandleMenuTouch.cell j) qx qy) eqn:Hjn;
    [exfalso|reflexivity].
  rewrite cell_closed_form in Hin, Hjn by assumption.
  apply rect_contains_iff in Hin, Hjn.
  pose proof (Z.div_mod i 5 ltac:(lia)) as Ei.
  pose proof (Z.div_mod j 5 ltac:(lia)) as Ej.
  pose proof (Z.mod_pos_bound i 5 ltac:(lia)) as Bi.
  pose proof (Z.mod_pos_bound j 5 ltac:(lia)) as Bj.
  lia.
Qed.

(** The centre of a cell is inside the cell. *)
Lemma centre_in_cell i :
  0 <= i < 2 ^ 24 ->
  rect_contains (HandleMenuTouch.cell i)
    (fst (centre (HandleMenuTouch.cell i)))
    (snd (centre (HandleMenuTouch.cell i))) = true.
Proof.
  intros Hi. rewrite cell_closed_form by assumption.
  cbn [centre fst snd]. apply rect_contains_iff.
  change (40 / 2) with 20. lia.
Qed.

Lemma hits_with_touch s t i :
  hits (with_touch s t) i = rect_contains (HandleMenuTouch.cell i) (tx t) (ty t).
Proof.
  unfold hits, isButtonPressed.
  destruct (HandleMenuTouch.cell i) as [[[x y] w] h]. reflexivity.
Qed.

(** C3: with 1 to 12 icons, the cell of icon [i] shares no point with the
    cell of any other icon, and a fresh press on the exact centre of the
    cell of icon [i] makes [handleMenuTouch] enter the mode stored in
    [apps[i]]. *)
Theorem menu_cells_disjoint_centre_hits (s : State) (i : Z) :
  well_formed s ->
  1 <= numApps s <= MAX_APPS ->
  0 <= i < numApps s ->
  let c := centre (HandleMenuTouch.cell i) in
  let s0 := with_touch s (mkTouch (fst c) (snd c) true true) in
  (forall j qx qy,
      0 <= j < numApps s -> j <> i ->
      rect_contains (HandleMenuTouch.cell i) qx qy = true ->
      rect_contains (HandleMenuTouch.cell j) qx qy = false) /\
  exists a,
    nth_error (apps s) (Z.to_nat i) = Some a /\
    handleMenuTouch s0
    = Some (tt, with_mode s0 (mode a),
            MenuHitTest (touch s0) :: enter_log (mode a)).
Proof.
  intros Hwf Hn Hi c s0. unfold MAX_APPS in Hn.
  split.
  - intros j qx qy Hj Hne. apply cells_disjoint; lia.
  - apply (handleMenuTouch_lowest_hit s0 (Some i)); [exact Hwf|].
    cbn [lowest_hit]. split; [exact Hi|].
    unfold s0. split.
    + rewrite hits_with_touch. apply centre_in_cell. lia.
    + intros j Hj. rewrite hits_with_touch.
      apply (cells_disjoint i j); [lia|lia|lia|].
      apply centre_in_cell. lia.
Qed.

Lemma menu_cells_disjoint_centre_hits_witness :
  let c := centre (HandleMenuTouch.cell 7) in
  let s0 := with_touch initial_state (mkTouch (fst c) (snd c) true true) in
  (forall j qx qy,
      0 <= j < numApps initial_state -> j <> 7 ->
      rect_contains (HandleMenuTouch.cell 7) qx qy = true ->
      rect_contains (HandleMenuTouch.cell j) qx qy = false) /\
  exists a,
    nth_error (apps initial_state) (Z.to_nat 7) = Some a /\
    handleMenuTouch s0
    = Some (tt, with_mode s0 (mode a),
            MenuHitTest (touch s0) :: enter_log (mode a)).
Proof.
  apply (menu_cells_disjoint_centre_hits initial_state 7).
  - unfold well_formed. cbn. lia.
  - unfold MAX_APPS. cbn. lia.
  - cbn. lia.
Defined.

(** ** Mode switching and the loop *)

Lemma exitToMenu_spec s :
  well_formed s ->
  exists d, exitToMenu s
            = Some (tt, with_mode s MENU, StopAllModes :: d ++ [UpdateStatus]) /\
            dispatches d = [].
Proof.
  intros Hwf.
  destruct (drawMenu_ok (with_mode s MENU) Hwf) as (d & Hd & Ht & _).
  exists d. split; [|apply tft_only_dispatches, Ht].
  unfold exitToMenu, bind, set_currentMode, stopAllModes, updateStatus, emit.
  fold (with_mode s MENU). rewrite Hd. reflexivity.
Qed.

Lemma send_all_spec l s :
  exists t, send_all l s = Some (tt, s, t) /\ dispatches t = [].
Proof.
  induction l as [|[[c n] v] l (t & E & D)].
  - exists []. split; reflexivity.
  - exists (SendMIDI c n v :: t). split; [|exact D].
    cbn [send_all]. unfold bind, sendMIDI, emit. rewrite E. reflexivity.
Qed.

Lemma handleMode_spec m act s :
  well_formed s ->
  exists t,
    handleMode m act s
    = Some (tt, (if returnToMenu act then with_mode s MENU else s),
            HandleMode m (touch s) :: t) /\
    dispatches t = [].
Proof.
  intros Hwf.
  destruct (send_all_spec (sends act) s) as (t1 & E1 & D1).
  unfold handleMode, bind, get, emit. rewrite E1.
  destruct (returnToMenu act); cbn [when].
  - destruct (exitToMenu_spec s Hwf) as (d & Ed & Dd).
    rewrite Ed. eexists. split; [reflexivity|].
    cbn [app]. rewrite dispatches_app, D1. cbn [app dispatches].
    rewrite dispatches_app, Dd. reflexivity.
  - eexists. split; [reflexivity|].
    cbn [app]. rewrite dispatches_app, D1. reflexivity.
Qed.

Lemma handleMenuTouch_total s :
  well_formed s ->
  exists s' t,
    handleMenuTouch s = Some (tt, s', MenuHitTest (touch s) :: t) /\
    dispatches t = [] /\
    (s' = s \/ exists a, In a (apps s) /\ s' = with_mode s (mode a)).
Proof.
  intros Hwf. destruct (lowest_hit_exists s) as [[i|] Hr].
  - destruct (handleMenuTouch_lowest_hit s (Some i) Hwf Hr) as (a & Hn & E).
    exists (with_mode s (mode a)), (enter_log (mode a)).
    split; [exact E|]. split.
    + unfold enter_log. destruct (AppMode_eqb (mode a) MENU); reflexivity.
    + right. exists a. split; [|reflexivity].
      eapply nth_error_In, Hn.
  - exists s, []. split; [|split; [reflexivity|left; reflexivity]].
    exact (handleMenuTouch_lowest_hit s None Hwf Hr).
Qed.

(** One pass of [loop], case by case. *)
Lemma loop_unfold raw act s :
  let s1 := with_touch s (sampled (touch s) raw) in
  loop raw act s
  = match (match currentMode s with
           | MENU => when (justPressed (touch s1)) handleMenuTouch
           | KEYBOARD => handleMode KEYBOARD act
           | SEQUENCER => handleMode SEQUENCER act
           | BOUNCING_BALL => handleMode BOUNCING_BALL act
           | PHYSICS_DROP => handleMode PHYSICS_DROP act
           | RANDOM_GENERATOR => handleMode RANDOM_GENERATOR act
           | XY_PAD => handleMode XY_PAD act
           | ARPEGGIATOR => handleMode ARPEGGIATOR act
           | GRID_PIANO => handleMode GRID_PIANO act
           | AUTO_CHORD => handleMode AUTO_CHORD act
           | LFO => handleMode LFO act
           end) s1 with
    | Some (_, s', t) => Some (tt, s', t ++ [Delay 20])
    | None => None
    end.
Proof.
  intros s1.
  assert (Hu : updateTouch raw s = Some (tt, s1, [])) by reflexivity.
  unfold loop. unfold bind at 1. rewrite Hu.
  unfold bind at 1. unfold get at 1.
  change (currentMode s1) with (currentMode s).
  unfold bind, emit.
  destruct (currentMode s);
    match goal with
    | |- context [handleMode ?m act s1] =>
        destruct (handleMode m act s1) as [[[[] s'] t]|]; reflexivity
    | |- context [when ?b handleMenuTouch s1] =>
        destruct (when b handleMenuTouch s1) as [[[[] s'] t]|]; reflexivity
    end.
Qed.

Lemma loop_spec raw act s :
  well_formed s ->
  let s1 := with_touch s (sampled (touch s) raw) in
  exists s' t,
    loop raw act s = Some (tt, s', t) /\
    dispatches t
    = match currentMode s with
      | MENU => if justPressed (touch s1) then [MenuHitTest (touch s1)] else []
      | _ => [HandleMode (currentMode s) (touch s1)]
      end /\
    match currentMode s with
    | MENU => s' = s1 \/
              (justPressed (touch s1) = true /\
               exists a, In a (apps s) /\ s' = with_mode s1 (mode a))
    | _ => s' = if returnToMenu act then with_mode s1 MENU else s1
    end.
Proof.
  intros Hwf s1. rewrite loop_unfold. fold s1.
  assert (Hwf1 : well_formed s1) by exact Hwf.
  destruct (currentMode s) eqn:Hmode.
  1: { destruct (justPressed (touch s1)) eqn:Hjp; cbn [when].
       - destruct (handleMenuTouch_total s1 Hwf1) as (s' & t & E & D & Hs).
         rewrite E. exists s', (MenuHitTest (touch s1) :: t ++ [Delay 20]).
         split; [reflexivity|]. split.
         + cbn [dispatches]. rewrite dispatches_app, D. reflexivity.
         + destruct Hs as [->|(a & Ha & ->)]; [left; reflexivity|].
           right. split; [reflexivity|]. exists a. split; [exact Ha|reflexivity].
       - exists s1, [Delay 20]. repeat split. left. reflexivity. }
  all: match goal with
       | |- context [handleMode ?m _ _] =>
           destruct (handleMode_spec m act s1 Hwf1) as (t & E & D)
       end;
    rewrite E; eexists _, _; split; [reflexivity|];
    split; [cbn [app dispatches]; rewrite dispatches_app, D; reflexivity
           |reflexivity].
Qed.

(** C8: one pass of [loop] makes exactly these dispatch calls: in [MENU],
    [handleMenuTouch] once if the freshly sampled touch state has
    [justPressed], and nothing otherwise; in any other mode, the per-tick
    function of that mode once, whatever the touch state, which it is
    handed whole. *)
Theorem loop_dispatch (s : State) (raw : Sample) (act : ModeAction) :
  well_formed s ->
  let tch := sampled (touch s) raw in
  exists s' t,
    loop raw act s = Some (tt, s', t) /\
    dispatches t
    = match currentMode s with
      | MENU => if justPressed tch then [MenuHitTest tch] else []
      | _ => [HandleMode (currentMode s) tch]
      end.
Proof.
  intros Hwf tch.
  destruct (loop_spec raw act s Hwf) as (s' & t & E & D & _).
  exists s', t. split; [exact E|exact D].
Qed.

Lemma loop_dispatch_witness :
  let s := with_mode initial_state SEQUENCER in
  let raw := mkSample true 100 100 in
  let tch := sampled (touch s) raw in
  exists s' t,
    loop raw idle s = Some (tt, s', t) /\
    dispatches t
    = match currentMode s with
      | MENU => if justPressed tch then [MenuHitTest tch] else []
      | _ => [HandleMode (currentMode s) tch]
      end.
Proof.
  intros s raw.
  apply (loop_dispatch s raw idle).
  unfold well_formed. cbn. lia.
Defined.

(** ** Executions *)

Lemma step_spec e s :
  well_formed s ->
  exists s' t,
    step e s = Some (tt, s', t) /\
    apps s' = apps s /\ numApps s' = numApps s /\
    (currentMode s' = currentMode s \/
     currentMode s' = MENU \/
     (currentMode s = MENU /\
      exists raw act tch, e = Tick raw act /\ dispatches t = [MenuHitTest tch])).
Proof.
  intros Hwf. destruct e as [raw act| |]; cbn [step].
  - destruct (loop_spec raw act s Hwf) as (s' & t & E & D & Hs).
    exists s', t. split; [exact E|].
    destruct (currentMode s) eqn:Hmode.
    1: { destruct Hs as [->|(Hjp & a & _ & ->)].
         - repeat split; try reflexivity. left. exact Hmode.
         - repeat split; try reflexivity. right. right. split; [reflexivity|].
           rewrite Hjp in D. eauto. }
    all: subst s'; destruct (returnToMenu act);
      repeat split; try reflexivity;
      solve [left; exact Hmode | right; left; reflexivity].
  - destruct (onConnect_spec s Hwf) as (d & _ & E).
    eexists _, _. split; [exact E|]. repeat split. left. reflexivity.
  - destruct (onDisconnect_spec s Hwf) as (d & _ & E).
    eexists _, _. split; [exact E|]. repeat split. left. reflexivity.
Qed.

Lemma run_total es : forall s,
  well_formed s ->
  exists s' t, run es s = Some (tt, s', t) /\
               apps s' = apps s /\ numApps s' = numApps s.
Proof.
  induction es as [|e es IH]; intros s Hwf.
  - exists s, []. repeat split.
  - destruct (step_spec e s Hwf) as (s1 & t1 & E1 & Ha & Hn & _).
    assert (Hwf1 : well_formed s1)
      by (unfold well_formed in *; rewrite Ha, Hn; exact Hwf).
    destruct (IH s1 Hwf1) as (s2 & t2 & E2 & Ha2 & Hn2).
    exists s2, (t1 ++ t2). cbn [run]. split.
    + apply (bind_some _ _ s tt s1 t1 tt s2 t2 E1 E2).
    + split; congruence.
Qed.

Lemma setup_spec :
  exists t, setup initial_state = Some (tt, initial_state, t).
Proof. eexists. vm_compute. reflexivity. Qed.

Lemma firmware_total es :
  exists s t, firmware es initial_state = Some (tt, s, t) /\
              apps s = apps initial_state /\
              numApps s = numApps initial_state.
Proof.
  destruct setup_spec as (t0 & E0).
  destruct (run_total es initial_state well_formed_initial)
    as (s & t & E & Ha & Hn).
  exists s, (t0 ++ t). split; [|split; assumption].
  unfold firmware. apply (bind_some _ _ _ tt initial_state t0 tt s t E0 E).
Qed.

(** C7: the firmware starts in [MENU], [setup] leaves it there, and from
    any state reached by any execution, any next event either keeps the
    current mode, or makes it [MENU], or finds it [MENU] and leaves it
    through a pass of [loop] that called [handleMenuTouch]; so no event
    takes one mode directly to another mode. *)
Theorem mode_changes_pass_through_menu (es : list Event) (e : Event) :
  currentMode initial_state = MENU /\
  state_of (setup initial_state) = Some initial_state /\
  exists s t0 s' t,
    firmware es initial_state = Some (tt, s, t0) /\
    step e s = Some (tt, s', t) /\
    (currentMode s' = currentMode s \/
     currentMode s' = MENU \/
     (currentMode s = MENU /\
      exists raw act tch, e = Tick raw act /\ dispatches t = [MenuHitTest tch])).
Proof.
  split; [reflexivity|]. split; [reflexivity|].
  destruct (firmware_total es) as (s & t0 & E & Ha & Hn).
  assert (Hwf : well_formed s).
  { unfold well_formed. rewrite Ha, Hn. exact well_formed_initial. }
  destruct (step_spec e s Hwf) as (s' & t & E' & _ & _ & Hmode).
  exists s, t0, s', t. repeat split; assumption.
Qed.

(** C9: the registry holds 10 entries, no more than [MAX_APPS] = 12;
    [MENU] is the mode of none of them and every other mode of exactly
    one; and after any execution [apps] and [numApps] are what their
    initialisers made them. *)
Theorem registry_invariant (es : list Event) (m : AppMode) :
  numApps initial_state = Z.of_nat (List.length (apps initial_state)) /\
  numApps initial_state <= MAX_APPS /\
  count_occ AppMode_eq_dec (map mode (apps initial_state)) m
    = (if AppMode_eqb m MENU then 0%nat else 1%nat) /\
  exists s t,
    firmware es initial_state = Some (tt, s, t) /\
    apps s = apps_init /\ numApps s = 10.
Proof.
  split; [reflexivity|]. split; [unfold MAX_APPS; cbn; lia|].
  split; [destruct m; reflexivity|].
  exact (firmware_total es).
Qed.

(** ** The round trip through a mode *)

Lemma run_until_menu raw act es : forall s1,
  well_formed s1 ->
  currentMode s1 <> MENU ->
  forallb stays es = true ->
  returnToMenu act = true ->
  exists tch t,
    run (es ++ [Tick raw act]) s1
    = Some (tt, with_mode (with_touch s1 tch) MENU, t).
Proof.
  induction es as [|e es IH]; intros s1 Hwf Hmode Hstay Hret.
  - destruct (loop_spec raw act s1 Hwf) as (s' & t & E & _ & Hs).
    destruct (currentMode s1) eqn:Hm; [congruence|..].
    all: rewrite Hret in Hs; subst s';
      exists (sampled (touch s1) raw), (t ++ []);
      cbn [app run step]; apply (bind_some _ _ _ _ _ _ _ _ _ E); reflexivity.
  - cbn [forallb] in Hstay. apply andb_true_iff in Hstay as [He Hes].
    destruct e as [r a| |]; cbn [stays] in He; try discriminate.
    apply negb_true_iff in He.
    destruct (loop_spec r a s1 Hwf) as (s' & t & E & _ & Hs).
    assert (Hs' : s' = with_touch s1 (sampled (touch s1) r)).
    { destruct (currentMode s1); [congruence|..];
        rewrite He in Hs; exact Hs. }
    subst s'.
    destruct (IH (with_touch s1 (sampled (touch s1) r)) Hwf Hmode Hes Hret)
      as (tch & t2 & E2).
    exists tch, (t ++ t2). cbn [app run step].
    apply (bind_some _ _ _ _ _ _ _ _ _ E). exact E2.
Qed.

(** C6: from the menu, entering a mode [m] and then leaving it gives back
    the globals exactly as they were: at once ([enterMode] then
    [exitToMenu]), and through the loop, after any number of ticks spent in
    the mode and the tick on which the mode asks for the menu, where only
    the touch sample, refreshed on every tick, is new. *)
Theorem mode_round_trip (s : State) (m : AppMode) (es : list Event)
    (raw : Sample) (act : ModeAction) :
  well_formed s ->
  currentMode s = MENU ->
  m <> MENU ->
  forallb stays es = true ->
  returnToMenu act = true ->
  exists s1 t1,
    enterMode m s = Some (tt, s1, t1) /\
    currentMode s1 = m /\
    (exists t2, exitToMenu s1 = Some (tt, s, t2)) /\
    exists s2 t3,
      run (es ++ [Tick raw act]) s1 = Some (tt, s2, t3) /\
      with_touch s2 (touch s) = s.
Proof.
  intros Hwf Hmenu Hm Hstay Hret.
  exists (with_mode s m), (enter_log m).
  split; [apply enterMode_spec|]. split; [reflexivity|].
  assert (Hwf1 : well_formed (with_mode s m)) by exact Hwf.
  split.
  - destruct (exitToMenu_spec (with_mode s m) Hwf1) as (d & E & _).
    eexists. rewrite E. do 3 f_equal.
    destruct s; cbn in *; subst; reflexivity.
  - destruct (run_until_menu raw act es (with_mode s m) Hwf1 Hm Hstay Hret)
      as (tch & t & E).
    eexists _, _. split; [exact E|].
    destruct s; cbn in *; subst; reflexivity.
Qed.

Lemma mode_round_trip_witness :
  exists s1 t1,
    enterMode ARPEGGIATOR initial_state = Some (tt, s1, t1) /\
    currentMode s1 = ARPEGGIATOR /\
    (exists t2, exitToMenu s1 = Some (tt, initial_state, t2)) /\
    exists s2 t3,
      run ([Tick (mkSample true 10 10) (mkAction [(0x90, 60, 127)] false);
            Tick (mkSample false 10 10) (mkAction [(0x80, 60, 0)] false)]
           ++ [Tick (mkSample true 20 20) (mkAction [] true)]) s1
      = Some (tt, s2, t3) /\
      with_touch s2 (touch initial_state) = initial_state.
Proof.
  apply (mode_round_trip initial_state ARPEGGIATOR).
  - unfold well_formed. cbn. lia.
  - reflexivity.
  - discriminate.
  - reflexivity.
  - reflexivity.
Defined.

(** * Further properties *)

(** ** The artwork stays inside its icon *)

(** With a side of 30 the wave of the LFO icon ends one column past the
    icon. *)
Lemma lfo_artwork_leaves_icon_of_side_30 :
  forallb (Artwork.inside 0 0 30)
    (Artwork.drawAppGraphics (fun _ => 0) LFO 0 0 30) = false.
Proof. reflexivity. Qed.

Ltac unwrap_ints :=
  unfold int_add, int_sub, int_mul, int_div, int_mod;
  repeat match goal with
         | |- context [wrap_int ?z] =>
             rewrite (wrap_int_small z)
               by (Z.to_euclidean_division_equations; lia)
         end.

Ltac inside_by_lia :=
  unfold Artwork.inside, Artwork.extent;
  rewrite ?andb_true_iff, ?Z.leb_le;
  Z.to_euclidean_division_equations; lia.

Lemma lfo_segments_inside wave x y size centerX centerY n :
  (forall i, -6 <= wave i <= 6) ->
  - 2 ^ 30 <= centerX <= 2 ^ 30 + 2 ^ 20 ->
  - 2 ^ 30 <= centerY <= 2 ^ 30 + 2 ^ 20 ->
  x + 15 <= centerX -> centerX + 15 <= x + size - 1 ->
  y + 6 <= centerY -> centerY + 6 <= y + size - 1 ->
  forall i lastX lastY,
    0 <= i -> i + Z.of_nat n <= 16 ->
    centerX - 15 <= lastX <= centerX + 15 ->
    centerY - 6 <= lastY <= centerY + 6 ->
    forallb (Artwork.inside x y size)
      (Artwork.lfo_segments wave n i centerX centerY lastX lastY) = true.
Proof.
  intros Hw Hcx Hcy Hx0 Hx1 Hy0 Hy1.
  induction n as [|n IH]; intros i lastX lastY Hi Hn HlX HlY; [reflexivity|].
  cbn [Artwork.lfo_segments forallb].
  pose proof (Hw i) as Hwi.
  apply andb_true_iff. split.
  - unwrap_ints. inside_by_lia.
  - apply IH; try lia; unwrap_ints; lia.
Qed.

Lemma lfo_segments_colour wave centerX centerY n c :
  forall i lastX lastY,
    In c (Artwork.lfo_segments wave n i centerX centerY lastX lastY) ->
    Artwork.colour_of c = THEME_BG.
Proof.
  induction n as [|n IH]; intros i lastX lastY Hc;
    cbn [Artwork.lfo_segments In] in Hc; [contradiction|].
  destruct Hc as [<-|Hc]; [reflexivity|]. eapply IH, Hc.
Qed.

Lemma artwork_inside wave m x y size :
  (forall i, -6 <= wave i <= 6) ->
  31 <= size <= 2 ^ 20 ->
  - 2 ^ 30 <= x <= 2 ^ 30 ->
  - 2 ^ 30 <= y <= 2 ^ 30 ->
  Forall (fun c => Artwork.inside x y size c = true /\
                   Artwork.colour_of c = THEME_BG)
         (Artwork.drawAppGraphics wave m x y size).
Proof.
  intros Hw Hs Hx Hy.
  assert (Hin : forallb (Artwork.inside x y size)
                  (Artwork.drawAppGraphics wave m x y size) = true);
    [|apply Forall_forall; intros c Hc; split;
      [exact (proj1 (forallb_forall _ _) Hin c Hc)|]].
  - destruct m; unfold Artwork.drawAppGraphics.
    11: { apply (lfo_segments_inside wave x y size); try assumption;
          try lia; unwrap_ints; Z.to_euclidean_division_equations; lia. }
    all: change (zrange 5 0) with [0; 1; 2; 3; 4];
      change (zrange 4 0) with [0; 1; 2; 3];
      change (zrange 3 0) with [0; 1; 2];
      cbn [map flat_map app forallb];
      rewrite ?andb_true_iff; repeat split;
      unwrap_ints; inside_by_lia.
  - destruct m; unfold Artwork.drawAppGraphics in Hc.
    11: { eapply lfo_segments_colour, Hc. }
    all: change (zrange 5 0) with [0; 1; 2; 3; 4] in Hc;
      change (zrange 4 0) with [0; 1; 2; 3] in Hc;
      change (zrange 3 0) with [0; 1; 2] in Hc;
      cbn [map flat_map app In] in Hc;
      repeat (destruct Hc as [<-|Hc]; [reflexivity|]); contradiction.
Qed.

(** X1: every primitive that [drawAppGraphics] issues for an icon of side
    31 or more paints only pixels of the square of the icon, columns
    [x .. x + size - 1] and rows [y .. y + size - 1], and is in
    [THEME_BG]. *)
Theorem artwork_inside_icon (wave : Z -> Z) (m : AppMode) (x y size : Z) :
  (forall i, -6 <= wave i <= 6) ->
  31 <= size <= 2 ^ 20 ->
  - 2 ^ 30 <= x <= 2 ^ 30 ->
  - 2 ^ 30 <= y <= 2 ^ 30 ->
  Forall (fun c => Artwork.inside x y size c = true /\
                   Artwork.colour_of c = THEME_BG)
         (Artwork.drawAppGraphics wave m x y size).
Proof. apply artwork_inside. Qed.


Lemma artwork_inside_icon_witness :
  Forall (fun c => Artwork.inside 140 128 40 c = true /\
                   Artwork.colour_of c = THEME_BG)
         (Artwork.drawAppGraphics (fun _ => 0) LFO 140 128 40).
Proof.
  apply (artwork_inside_icon (fun _ => 0) LFO 140 128 40); intros; lia.
Defined.

(** ** Hit-testing by division *)

Lemma hits_rect s i :
  hits s i
  = rect_contains (HandleMenuTouch.cell i) (tx (touch s)) (ty (touch s)).
Proof.
  unfold hits, isButtonPressed.
  destruct (HandleMenuTouch.cell i) as [[[x y] w] h]. reflexivity.
Qed.

Lemma handleMenuTouch_outcome s r :
  lowest_hit s r -> handleMenuTouch s = touch_outcome s r.
Proof.
  intros Hr. rewrite handleMenuTouch_unfold.
  destruct r as [i|]; cbn [lowest_hit touch_outcome] in *.
  - destruct Hr as (Hi & Hh & Hl).
    rewrite (handleMenuTouch_for_first _ 0 s i); [|lia| |exact Hh].
    + unfold bind, apps_at.
      destruct (Z.ltb_spec i 0) as [Hneg|_]; [lia|].
      destruct (nth_error (apps s) (Z.to_nat i)) as [a|]; [|reflexivity].
      rewrite enterMode_spec. reflexivity.
    + intros j Hj. apply Hl. lia.
  - rewrite handleMenuTouch_for_none; [reflexivity|].
    intros j Hj. apply Hr. lia.
Qed.

Lemma first_containing_lowest s n : forall k,
  match first_containing k (map HandleMenuTouch.cell (zrange n k))
          (tx (touch s)) (ty (touch s)) with
  | Some i => k <= i < k + Z.of_nat n /\ hits s i = true /\
              forall j, k <= j < i -> hits s j = false
  | None => forall j, k <= j < k + Z.of_nat n -> hits s j = false
  end.
Proof.
  induction n as [|n IH]; intros k; cbn [zrange map first_containing].
  - intros j Hj. lia.
  - rewrite <- hits_rect. destruct (hits s k) eqn:Hk.
    + split; [lia|]. split; [exact Hk|]. intros j Hj. lia.
    + specialize (IH (k + 1)).
      destruct (first_containing (k + 1)
                  (map HandleMenuTouch.cell (zrange n (k + 1)))
                  (tx (touch s)) (ty (touch s))) as [i|].
      * destruct IH as (Hi & Hh & Hl). split; [lia|]. split; [exact Hh|].
        intros j Hj. destruct (Z.eq_dec j k) as [->|Hne]; [exact Hk|].
        apply Hl. lia.
      * intros j Hj. destruct (Z.eq_dec j k) as [->|Hne]; [exact Hk|].
        apply IH. lia.
Qed.

(** C4: the two cell formulas are the same function of the index;
    [drawMenu] paints, for icon 0, 1, ..., numApps-1 in this order, the
    rectangle of that formula; and these painted rectangles are the ones
    [handleMenuTouch] tests, icon by icon and in this order: whatever the
    touch point, it enters the icon of the first painted rectangle that
    contains the point, and does nothing when no painted rectangle
    does. *)
Theorem drawn_cells_are_tested_cells (s : State) (i : Z) :
  well_formed s ->
  DrawMenu.cell i = HandleMenuTouch.cell i /\
  exists t,
    drawMenu s = Some (tt, s, t) /\
    painted_rects t = map HandleMenuTouch.cell (indices (numApps s)) /\
    handleMenuTouch s
    = touch_outcome s
        (first_containing 0 (painted_rects t) (tx (touch s)) (ty (touch s))).
Proof.
  intros Hwf. split; [reflexivity|].
  destruct (drawMenu_ok s Hwf) as (t & E & _ & P).
  assert (P' : painted_rects t
               = map HandleMenuTouch.cell (indices (numApps s))).
  { rewrite P. apply map_ext. intros k. reflexivity. }
  exists t. split; [exact E|]. split; [exact P'|].
  apply handleMenuTouch_outcome. rewrite P'. unfold indices.
  pose proof (first_containing_lowest s (Z.to_nat (numApps s)) 0) as H.
  destruct (first_containing 0
              (map HandleMenuTouch.cell (zrange (Z.to_nat (numApps s)) 0))
              (tx (touch s)) (ty (touch s))) as [j|]; cbn [lowest_hit].
  - destruct H as (Hj & Hh & Hl). split; [lia|]. split; [exact Hh|exact Hl].
  - intros j Hj. apply H. lia.
Qed.

Lemma drawn_cells_are_tested_cells_witness :
  let s := with_touch initial_state (mkTouch 150 140 true true) in
  DrawMenu.cell 7 = HandleMenuTouch.cell 7 /\
  exists t,
    drawMenu s = Some (tt, s, t) /\
    painted_rects t = map HandleMenuTouch.cell (indices (numApps s)) /\
    handleMenuTouch s
    = touch_outcome s
        (first_containing 0 (painted_rects t) (tx (touch s)) (ty (touch s))).
Proof.
  intros s.
  apply (drawn_cells_are_tested_cells s 7).
  unfold well_formed. cbn. lia.
Defined.

Lemma lowest_hit_unique s r r' :
  lowest_hit s r -> lowest_hit s r' -> r = r'.
Proof.
  destruct r as [i|], r' as [j|]; cbn [lowest_hit].
  - intros (Hi & Hhi & Hli) (Hj & Hhj & Hlj). f_equal.
    destruct (Z.lt_trichotomy i j) as [Hlt|[Heq|Hgt]]; [|exact Heq|].
    + rewrite (Hlj i) in Hhi by lia. discriminate.
    + rewrite (Hli j) in Hhj by lia. discriminate.
  - intros (Hi & Hhi & _) Hnone. rewrite (Hnone i Hi) in Hhi. discriminate.
  - intros Hnone (Hj & Hhj & _). rewrite (Hnone j Hj) in Hhj. discriminate.
  - reflexivity.
Qed.

Lemma grid_index_spec px py j :
  0 <= j < 2 ^ 24 ->
  rect_contains (HandleMenuTouch.cell j) px py = true <->
  grid_index px py = Some j.
Proof.
  intros Hj. rewrite cell_closed_form by assumption.
  rewrite rect_contains_iff. unfold grid_index.
  pose proof (Z.div_mod (px - 44) 48 ltac:(lia)) as Ex.
  pose proof (Z.mod_pos_bound (px - 44) 48 ltac:(lia)) as Bx.
  pose proof (Z.div_mod (py - 65) 63 ltac:(lia)) as Ey.
  pose proof (Z.mod_pos_bound (py - 65) 63 ltac:(lia)) as By.
  pose proof (Z.div_mod j 5 ltac:(lia)) as Ej.
  pose proof (Z.mod_pos_bound j 5 ltac:(lia)) as Bj.
  set (qx := (px - 44) / 48) in *. set (rx := (px - 44) mod 48) in *.
  set (qy := (py - 65) / 63) in *. set (ry := (py - 65) mod 63) in *.
  set (qj := j / 5) in *. set (rj := j mod 5) in *.
  clearbody qx rx qy ry qj rj.
  destruct ((0 <=? px - 44) && (0 <=? py - 65) && (qx <? 5)
            && (rx <=? 40) && (ry <=? 40)) eqn:E.
  - rewrite !andb_true_iff, !Z.leb_le, Z.ltb_lt in E.
    split.
    + intros H. f_equal.
      assert (qx = rj) by lia. assert (qy = qj) by lia. lia.
    + intros H. assert (H' : 5 * qy + qx = j) by congruence. clear H.
      assert (0 <= qx) by lia. assert (0 <= qy) by lia.
      assert (qx = rj) by lia. assert (qy = qj) by lia. lia.
  - split; [|discriminate].
    intros H. exfalso.
    rewrite !andb_false_iff, !Z.leb_gt, Z.ltb_ge in E.
    assert (qx = rj) by lia. assert (qy = qj) by lia. lia.
Qed.

Lemma grid_index_nonneg px py i : grid_index px py = Some i -> 0 <= i.
Proof.
  unfold grid_index.
  destruct ((0 <=? px - 44) && (0 <=? py - 65) && ((px - 44) / 48 <? 5)
            && ((px - 44) mod 48 <=? 40) && ((py - 65) mod 63 <=? 40)) eqn:E;
    [|discriminate].
  rewrite !andb_true_iff, !Z.leb_le, Z.ltb_lt in E.
  intros H.
  assert (H' : 5 * ((py - 65) / 63) + (px - 44) / 48 = i) by congruence.
  pose proof (Z.div_pos (py - 65) 63 ltac:(lia) ltac:(lia)).
  pose proof (Z.div_pos (px - 44) 48 ltac:(lia) ltac:(lia)).
  lia.
Qed.

(** X2: with up to [2 ^ 24] icons, the search of [handleMenuTouch] finds
    the cell that two divisions give: the touch enters [apps[i]] when it
    falls in the cell of an index [i < numApps], reads past the array when
    that [i] is beyond its end, and changes nothing when it falls in a gap,
    a margin, the header or the cell of no icon. *)
Theorem menu_touch_by_division (s : State) :
  numApps s <= 2 ^ 24 ->
  handleMenuTouch s
  = touch_outcome s
      match grid_index (tx (touch s)) (ty (touch s)) with
      | Some i => if i <? numApps s then Some i else None
      | None => None
      end.
Proof.
  intros Hn. apply handleMenuTouch_outcome.
  destruct (grid_index (tx (touch s)) (ty (touch s))) as [i|] eqn:E.
  - pose proof (grid_index_nonneg _ _ _ E) as Hi0.
    destruct (Z.ltb_spec i (numApps s)) as [Hlt|Hge]; cbn [lowest_hit].
    + split; [lia|]. split.
      * rewrite hits_rect. apply grid_index_spec; [lia|exact E].
      * intros j Hj. rewrite hits_rect.
        destruct (rect_contains (HandleMenuTouch.cell j) (tx (touch s))
                    (ty (touch s))) eqn:Hc; [|reflexivity].
        apply grid_index_spec in Hc; [|lia]. rewrite E in Hc.
        injection Hc as Hc. lia.
    + intros j Hj. rewrite hits_rect.
      destruct (rect_contains (HandleMenuTouch.cell j) (tx (touch s))
                  (ty (touch s))) eqn:Hc; [|reflexivity].
      apply grid_index_spec in Hc; [|lia]. rewrite E in Hc.
      injection Hc as Hc. lia.
  - cbn [lowest_hit]. intros j Hj. rewrite hits_rect.
    destruct (rect_contains (HandleMenuTouch.cell j) (tx (touch s))
                (ty (touch s))) eqn:Hc; [|reflexivity].
    apply grid_index_spec in Hc; [|lia]. rewrite E in Hc. discriminate.
Qed.

Lemma menu_touch_by_division_witness :
  handleMenuTouch (with_touch initial_state (mkTouch 100 150 true true))
  = touch_outcome (with_touch initial_state (mkTouch 100 150 true true))
      match grid_index 100 150 with
      | Some i => if i <? 10 then Some i else None
      | None => None
      end.
Proof.
  apply (menu_touch_by_division
           (with_touch initial_state (mkTouch 100 150 true true))).
  cbn. lia.
Defined.

(** ** What [drawMenu] paints *)

Lemma icon_calls_quiet t :
  forallb is_icon_call t = true ->
  screens t = [] /\ status_glyphs t = [] /\ midi_of t = [] /\ dispatches t = [].
Proof.
  induction t as [|e t IH]; [repeat split|].
  cbn [forallb]. intros H. apply andb_true_iff in H as [He Ht].
  destruct (IH Ht) as (H1 & H2 & H3 & H4).
  destruct e as [d| | | | | | | | |]; try discriminate He.
  destruct d; try discriminate He; cbn; repeat split; assumption.
Qed.

Lemma drawn_icons_app t1 t2 :
  drawn_icons (t1 ++ t2) = drawn_icons t1 ++ drawn_icons t2.
Proof.
  induction t1 as [|e t1 IH]; [reflexivity|].
  destruct e as [d| | | | | | | | |]; try destruct d;
    cbn [drawn_icons app]; rewrite IH; reflexivity.
Qed.

Lemma screens_app t1 t2 : screens (t1 ++ t2) = screens t1 ++ screens t2.
Proof.
  induction t1 as [|e t1 IH]; [reflexivity|].
  destruct e as [d| | | | | | | | |]; try destruct d;
    cbn [screens app]; rewrite IH; reflexivity.
Qed.

Lemma status_glyphs_app t1 t2 :
  status_glyphs (t1 ++ t2) = status_glyphs t1 ++ status_glyphs t2.
Proof.
  induction t1 as [|e t1 IH]; [reflexivity|].
  destruct e as [d| | | | | | | | |]; try destruct d;
    cbn [status_glyphs app]; rewrite IH; try reflexivity.
  destruct ((x =? 290) && (y =? 55) && (font =? 2)); reflexivity.
Qed.

Lemma drawMenu_icon_log s i :
  0 <= i < Z.of_nat (List.length (apps s)) ->
  exists a t,
    nth_error (apps s) (Z.to_nat i) = Some a /\
    drawMenu_icon i s = Some (tt, s, t) /\
    forallb is_icon_call t = true /\
    drawn_icons t = [(mode a, HandleMenuTouch.cell i)].
Proof.
  intros Hi. destruct (apps_at_ok s i Hi) as (a & Hn & Ha).
  exists a. unfold drawMenu_icon, DrawMenu.cell. cbv beta iota zeta.
  unfold bind at 1. rewrite Ha.
  eexists. split; [exact Hn|]. split; [reflexivity|]. split; reflexivity.
Qed.

Lemma drawMenu_loop_log s n : forall i,
  0 <= i ->
  i + Z.of_nat n <= Z.of_nat (List.length (apps s)) ->
  exists t,
    for_range n i drawMenu_icon s = Some (tt, s, t) /\
    forallb is_icon_call t = true /\
    List.length (drawn_icons t) = n /\
    forall m r, In (m, r) (drawn_icons t) ->
      exists j a, i <= j < i + Z.of_nat n /\
                  nth_error (apps s) (Z.to_nat j) = Some a /\
                  m = mode a /\ r = HandleMenuTouch.cell j.
Proof.
  induction n as [|n IH]; intros i H0 Hn.
  - exists []. repeat split. intros m r [].
  - destruct (drawMenu_icon_log s i) as (a & t1 & Ha & E1 & C1 & D1); [lia|].
    destruct (IH (i + 1)) as (t2 & E2 & C2 & L2 & D2); [lia|lia|].
    exists (t1 ++ t2). cbn [for_range]. split.
    { apply (bind_some _ _ s tt s t1 tt s t2 E1 E2). }
    rewrite forallb_app, C1, C2, drawn_icons_app, D1.
    split; [reflexivity|]. split; [cbn; rewrite L2; reflexivity|].
    intros m r [Hin|Hin].
    + injection Hin as <- <-. exists i, a. repeat split; try assumption; lia.
    + destruct (D2 m r Hin) as (j & b & Hj & Hb & Hm & Hr).
      exists j, b. repeat split; try assumption; lia.
Qed.

(** The log of [drawMenu]: the header with the status line, then the
    icons. *)
Lemma drawMenu_log s :
  well_formed s ->
  exists th ti,
    drawMenu s = Some (tt, s, th ++ ti) /\
    screens th = [MENU] /\
    status_glyphs th = [if deviceConnected s then "●" else "○"]%string /\
    drawn_icons th = [] /\
    forallb is_tft th = true /\
    forallb is_icon_call ti = true /\
    List.length (drawn_icons ti) = Z.to_nat (numApps s) /\
    forall m r, In (m, r) (drawn_icons ti) ->
      exists j a, 0 <= j < numApps s /\
                  nth_error (apps s) (Z.to_nat j) = Some a /\
                  m = mode a /\ r = HandleMenuTouch.cell j.
Proof.
  intros Hwf. unfold well_formed in Hwf.
  destruct (drawMenu_loop_log s (Z.to_nat (numApps s)) 0)
    as (ti & E & C & L & D); [lia|lia|].
  assert (D' : forall m r, In (m, r) (drawn_icons ti) ->
            exists j a, 0 <= j < numApps s /\
                        nth_error (apps s) (Z.to_nat j) = Some a /\
                        m = mode a /\ r = HandleMenuTouch.cell j).
  { intros m r Hin. destruct (D m r Hin) as (j & a & Hj & Ha & Hm & Hr).
    exists j, a. repeat split; try assumption; lia. }
  unfold drawMenu.
  destruct (deviceConnected s) eqn:Hc.
  all: eexists _, ti; split;
    [ unfold bind, tft, emit, get; rewrite Hc; cbn [negb]; rewrite E;
      cbv beta iota; rewrite !app_assoc; reflexivity
    | cbn [app]; repeat split; try assumption; reflexivity ].
Qed.

Lemma drawMenu_icon_past_end s i :
  Z.of_nat (List.length (apps s)) <= i -> drawMenu_icon i s = None.
Proof.
  intros Hi. unfold drawMenu_icon, DrawMenu.cell. cbv beta iota zeta.
  unfold bind at 1. unfold apps_at.
  destruct (Z.ltb_spec i 0) as [_|_]; [reflexivity|].
  destruct (nth_error (apps s) (Z.to_nat i)) as [a|] eqn:E; [|reflexivity].
  assert (nth_error (apps s) (Z.to_nat i) <> None) as Hn by congruence.
  apply nth_error_Some in Hn. lia.
Qed.

Lemma drawMenu_loop_past_end s n : forall i,
  0 <= i <= Z.of_nat (List.length (apps s)) ->
  Z.of_nat (List.length (apps s)) < i + Z.of_nat n ->
  for_range n i drawMenu_icon s = None.
Proof.
  induction n as [|n IH]; intros i Hi Hn; [lia|].
  cbn [for_range]. unfold bind.
  destruct (Z.eq_dec i (Z.of_nat (List.length (apps s)))) as [E|E].
  - rewrite drawMenu_icon_past_end by lia. reflexivity.
  - destruct (drawMenu_icon_log s i) as (a & t & _ & Et & _); [lia|].
    rewrite Et, IH by lia. reflexivity.
Qed.

(** X3: [drawMenu] stays inside [apps] exactly when [numApps] is no more
    than the number of elements of the array; with a larger [numApps] it
    reads [apps] past its end. *)
Theorem drawMenu_in_bounds_iff (s : State) :
  drawMenu s <> None <-> well_formed s.
Proof.
  split.
  - intros Hdef.
    destruct (Z.le_gt_cases (numApps s) (Z.of_nat (List.length (apps s))))
      as [Hle|Hgt]; [exact Hle|].
    exfalso. apply Hdef.
    pose proof (drawMenu_loop_past_end s (Z.to_nat (numApps s)) 0
                  ltac:(lia) ltac:(lia)) as Hloop.
    unfold drawMenu, bind, tft, emit, get.
    destruct (deviceConnected s); cbn [negb]; cbv beta iota;
      rewrite Hloop; reflexivity.
  - intros Hwf. destruct (drawMenu_ok s Hwf) as (t & E & _).
    rewrite E. discriminate.
Qed.

(** X4: [drawMenu] paints [numApps] icons, and every icon it paints is
    live: a fresh press on any point of the square painted for mode [m],
    edges included, makes [handleMenuTouch] enter [m]. *)
Theorem painted_icon_enters_its_mode (s : State) (m : AppMode)
    (r : Z * Z * Z * Z) (px py : Z) :
  well_formed s ->
  numApps s <= 2 ^ 24 ->
  In (m, r) (drawn_icons (log_of (drawMenu s))) ->
  rect_contains r px py = true ->
  let s0 := with_touch s (mkTouch px py true true) in
  List.length (drawn_icons (log_of (drawMenu s))) = Z.to_nat (numApps s) /\
  handleMenuTouch s0
  = Some (tt, with_mode s0 m, MenuHitTest (touch s0) :: enter_log m).
Proof.
  intros Hwf Hn Hin Hr s0.
  destruct (drawMenu_log s Hwf) as (th & ti & E & _ & _ & Dh & _ & _ & L & D).
  rewrite E in Hin |- *. cbn [log_of] in Hin |- *.
  rewrite drawn_icons_app, Dh in Hin |- *. cbn [app] in Hin |- *.
  split; [exact L|].
  destruct (D m r Hin) as (j & a & Hj & Ha & -> & ->).
  assert (Hlow : lowest_hit s0 (Some j)).
  { cbn [lowest_hit]. split; [exact Hj|]. unfold s0. split.
    - rewrite hits_with_touch. exact Hr.
    - intros k Hk. rewrite hits_with_touch.
      apply (cells_disjoint j k); [lia|lia|lia|exact Hr]. }
  destruct (handleMenuTouch_lowest_hit s0 (Some j) Hwf Hlow) as (a' & Ha' & E').
  assert (a' = a) by (change (apps s0) with (apps s) in Ha'; congruence).
  subst a'. exact E'.
Qed.

Lemma painted_icon_enters_its_mode_witness :
  let s0 := with_touch initial_state (mkTouch 236 168 true true) in
  List.length (drawn_icons (log_of (drawMenu initial_state)))
    = Z.to_nat (numApps initial_state) /\
  handleMenuTouch s0
  = Some (tt, with_mode s0 LFO, MenuHitTest (touch s0) :: enter_log LFO).
Proof.
  apply (painted_icon_enters_its_mode initial_state LFO (236, 128, 40, 40)).
  - unfold well_formed. cbn. lia.
  - cbn. lia.
  - vm_compute. do 9 right. left. reflexivity.
  - reflexivity.
Defined.

(** ** The exact log of a pass of [loop] and of the callbacks *)

Lemma send_all_log l s : send_all l s = Some (tt, s, map send_effect l).
Proof.
  induction l as [|[[c n] v] l IH]; [reflexivity|].
  cbn [send_all map send_effect]. unfold bind, sendMIDI, emit.
  rewrite IH. reflexivity.
Qed.

Lemma midi_of_send_effects l : midi_of (map send_effect l) = l.
Proof.
  induction l as [|[[c n] v] l IH]; [reflexivity|].
  cbn [map send_effect midi_of]. rewrite IH. reflexivity.
Qed.

Lemma screens_send_effects l : screens (map send_effect l) = [].
Proof. induction l as [|[[c n] v] l IH]; [reflexivity|exact IH]. Qed.

Lemma exitToMenu_log s :
  well_formed s ->
  exists dm,
    drawMenu (with_mode s MENU) = Some (tt, with_mode s MENU, dm) /\
    exitToMenu s
    = Some (tt, with_mode s MENU, StopAllModes :: dm ++ [UpdateStatus]).
Proof.
  intros Hwf.
  destruct (drawMenu_ok (with_mode s MENU) Hwf) as (d & Hd & _).
  exists d. split; [exact Hd|].
  unfold exitToMenu, bind, set_currentMode, stopAllModes, updateStatus, emit.
  fold (with_mode s MENU). rewrite Hd. reflexivity.
Qed.

Lemma handleMode_log m act s :
  well_formed s ->
  exists d,
    handleMode m act s
    = Some (tt, (if returnToMenu act then with_mode s MENU else s),
            HandleMode m (touch s) :: map send_effect (sends act) ++ d) /\
    (if returnToMenu act
     then exists dm,
            drawMenu (with_mode s MENU) = Some (tt, with_mode s MENU, dm) /\
            d = StopAllModes :: dm ++ [UpdateStatus]
     else d = []).
Proof.
  intros Hwf. unfold handleMode, bind, get, emit.
  rewrite send_all_log.
  destruct (returnToMenu act); cbn [when].
  - destruct (exitToMenu_log s Hwf) as (dm & Hdm & E). rewrite E.
    eexists. split; [reflexivity|]. exists dm. split; [exact Hdm|reflexivity].
  - exists []. split; reflexivity.
Qed.

Lemma touch_outcome_defined s r :
  well_formed s -> lowest_hit s r -> touch_outcome s r <> None.
Proof.
  intros Hwf Hr. destruct r as [i|]; cbn [touch_outcome lowest_hit] in *;
    [|discriminate].
  destruct Hr as (Hi & _). unfold well_formed in Hwf.
  destruct (nth_error (apps s) (Z.to_nat i)) eqn:E; [discriminate|].
  apply nth_error_None in E. lia.
Qed.

Lemma loop_log raw act s :
  well_formed s ->
  let s1 := with_touch s (sampled (touch s) raw) in
  exists s' t,
    loop raw act s = Some (tt, s', t ++ [Delay 20]) /\
    if AppMode_eqb (currentMode s) MENU
    then (justPressed (touch s1) = false /\ s' = s1 /\ t = []) \/
         (justPressed (touch s1) = true /\
          exists r, lowest_hit s1 r /\ touch_outcome s1 r = Some (tt, s', t))
    else exists d,
           t = HandleMode (currentMode s) (touch s1)
                 :: map send_effect (sends act) ++ d /\
           s' = (if returnToMenu act then with_mode s1 MENU else s1) /\
           (if returnToMenu act
            then exists dm,
                   drawMenu (with_mode s1 MENU)
                   = Some (tt, with_mode s1 MENU, dm) /\
                   d = StopAllModes :: dm ++ [UpdateStatus]
            else d = []).
Proof.
  intros Hwf s1. rewrite loop_unfold. fold s1.
  assert (Hwf1 : well_formed s1) by exact Hwf.
  destruct (currentMode s) eqn:Hmode; cbn [AppMode_eqb].
  1: { change (AppMode_eqb MENU MENU) with true. cbv iota.
       destruct (justPressed (touch s1)) eqn:Hjp; cbn [when].
       - destruct (lowest_hit_exists s1) as (r & Hr).
         rewrite (handleMenuTouch_outcome s1 r Hr).
         pose proof (touch_outcome_defined s1 r Hwf1 Hr) as Hdef.
         destruct (touch_outcome s1 r) as [[[[] s'] t]|] eqn:E; [|congruence].
         exists s', t. split; [reflexivity|]. right. split; [reflexivity|].
         exists r. split; [exact Hr|exact E].
       - exists s1, []. split; [reflexivity|]. left. repeat split. }
  all: match goal with
       | |- context [handleMode ?m _ _] =>
           destruct (handleMode_log m act s1 Hwf1) as (d & E & Hd)
       end;
    rewrite E; eexists _, _; split; [reflexivity|];
    match goal with
    | |- context [AppMode_eqb ?m MENU] =>
        change (AppMode_eqb m MENU) with false
    end; cbv iota;
    exists d; split; [reflexivity|]; split; [reflexivity|exact Hd].
Qed.

Lemma when_menu_log s :
  well_formed s ->
  exists d,
    when (AppMode_eqb (currentMode s) MENU) drawMenu s = Some (tt, s, d) /\
    (if AppMode_eqb (currentMode s) MENU
     then drawMenu s = Some (tt, s, d)
     else d = []).
Proof.
  intros Hwf. destruct (AppMode_eqb (currentMode s) MENU); cbn [when].
  - destruct (drawMenu_ok s Hwf) as (d & Hd & _). exists d. split; exact Hd.
  - exists []. split; reflexivity.
Qed.

Lemma onConnect_log s :
  well_formed s ->
  let s' := with_connected s true in
  exists d,
    onConnect s = Some (tt, s', d ++ [UpdateStatus]) /\
    (if AppMode_eqb (currentMode s) MENU
     then drawMenu s' = Some (tt, s', d)
     else d = []).
Proof.
  intros Hwf s'.
  destruct (when_menu_log s' Hwf) as (d & Hd & Hd').
  exists d. split; [|exact Hd'].
  unfold onConnect, bind, set_deviceConnected, get, updateStatus, emit.
  fold (with_connected s true). fold s'. rewrite Hd. reflexivity.
Qed.

Lemma onDisconnect_log s :
  well_formed s ->
  let s' := with_connected s false in
  exists d,
    onDisconnect s
    = Some (tt, s', d ++ UpdateStatus
                      :: map (fun k => SendMIDI 0x80 k 0) (indices 128)) /\
    (if AppMode_eqb (currentMode s) MENU
     then drawMenu s' = Some (tt, s', d)
     else d = []).
Proof.
  intros Hwf s'.
  destruct (when_menu_log s' Hwf) as (d & Hd & Hd').
  exists d. split; [|exact Hd'].
  unfold onDisconnect.
  unfold bind at 1. unfold set_deviceConnected. fold (with_connected s false).
  fold s'. unfold bind at 1. unfold get.
  unfold bind at 1. rewrite Hd.
  unfold bind at 1. unfold updateStatus, emit.
  rewrite sweep_loop. reflexivity.
Qed.

Lemma AppMode_eqb_MENU m : AppMode_eqb m MENU = true <-> m = MENU.
Proof. destruct m; cbn; split; congruence. Qed.

Lemma drawMenu_reads s dm :
  well_formed s ->
  drawMenu s = Some (tt, s, dm) ->
  screens dm = [MENU] /\
  status_glyphs dm = [if deviceConnected s then "●" else "○"]%string /\
  midi_of dm = [].
Proof.
  intros Hwf E.
  destruct (drawMenu_log s Hwf) as (th & ti & E' & S & G & _ & T & C & _).
  rewrite E in E'. injection E' as ->.
  destruct (icon_calls_quiet ti C) as (Si & Gi & Mi & _).
  rewrite screens_app, status_glyphs_app, midi_of_app, S, G, Si, Gi, Mi.
  rewrite (tft_only_midi th T). repeat split.
Qed.

Lemma status_glyphs_sends (f : Z -> Effect) l :
  (forall k, status_glyphs [f k] = []) ->
  status_glyphs (map f l) = [].
Proof.
  intros Hf. induction l as [|k l IH]; [reflexivity|].
  change (map f (k :: l)) with ([f k] ++ map f l).
  rewrite status_glyphs_app, Hf, IH. reflexivity.
Qed.

(** X5: the menu shows the connection state it is drawn in, and a
    connection event in [MENU] repaints it with the new state: the glyph
    drawn at the status position is the filled dot after [onConnect] and
    the hollow one after [onDisconnect]; in any other mode the callbacks
    draw no glyph. *)
Theorem status_glyph_follows_connection (s : State) :
  well_formed s ->
  status_glyphs (log_of (drawMenu s))
    = [if deviceConnected s then "●" else "○"]%string /\
  status_glyphs (log_of (onConnect s))
    = (if AppMode_eqb (currentMode s) MENU then ["●"] else [])%string /\
  status_glyphs (log_of (onDisconnect s))
    = (if AppMode_eqb (currentMode s) MENU then ["○"] else [])%string.
Proof.
  intros Hwf. split; [|split].
  - destruct (drawMenu_ok s Hwf) as (dm & E & _).
    rewrite E. exact (proj1 (proj2 (drawMenu_reads s dm Hwf E))).
  - destruct (onConnect_log s Hwf) as (d & E & Hd). rewrite E.
    cbn [log_of]. rewrite status_glyphs_app.
    destruct (AppMode_eqb (currentMode s) MENU).
    + rewrite (proj1 (proj2 (drawMenu_reads (with_connected s true) d Hwf Hd))).
      reflexivity.
    + subst d. reflexivity.
  - destruct (onDisconnect_log s Hwf) as (d & E & Hd). rewrite E.
    cbn [log_of]. rewrite status_glyphs_app.
    change (UpdateStatus :: ?l) with ([UpdateStatus] ++ l).
    rewrite status_glyphs_app, status_glyphs_sends by reflexivity.
    destruct (AppMode_eqb (currentMode s) MENU).
    + rewrite (proj1 (proj2 (drawMenu_reads (with_connected s false) d Hwf Hd))).
      reflexivity.
    + subst d. reflexivity.
Qed.

Lemma status_glyph_follows_connection_witness :
  status_glyphs (log_of (drawMenu initial_state))
    = [if deviceConnected initial_state then "●" else "○"]%string /\
  status_glyphs (log_of (onConnect initial_state))
    = (if AppMode_eqb (currentMode initial_state) MENU
       then ["●"] else [])%string /\
  status_glyphs (log_of (onDisconnect initial_state))
    = (if AppMode_eqb (currentMode initial_state) MENU
       then ["○"] else [])%string.
Proof.
  apply (status_glyph_follows_connection initial_state).
  unfold well_formed. cbn. lia.
Defined.

(** ** What one event does *)

Lemma enter_log_reads m :
  midi_of (enter_log m) = [] /\
  screens (enter_log m) = if AppMode_eqb m MENU then [] else [m].
Proof. destruct m; split; reflexivity. Qed.

Lemma step_effects e s :
  well_formed s ->
  exists s' t,
    step e s = Some (tt, s', t) /\
    well_formed s' /\
    deviceConnected s' = connection_after [e] (deviceConnected s) /\
    midi_of t
    = match e with
      | Tick _ act =>
          if AppMode_eqb (currentMode s) MENU then [] else sends act
      | Connect => []
      | Disconnect => sweep
      end /\
    ((screens t = [] /\ currentMode s' = currentMode s) \/
     exists pre, screens t = pre ++ [currentMode s']).
Proof.
  intros Hwf. destruct e as [raw act| |]; cbn [step connection_after].
  - destruct (loop_log raw act s Hwf) as (s' & t & E & H).
    exists s', (t ++ [Delay 20]). split; [exact E|].
    rewrite midi_of_app, screens_app, !app_nil_r.
    destruct (AppMode_eqb (currentMode s) MENU) eqn:Hm.
    + apply AppMode_eqb_MENU in Hm.
      destruct H as [(_ & -> & ->)|(_ & r & Hr & Ho)].
      { repeat split; try assumption. left. split; reflexivity. }
      destruct r as [i|]; cbn [touch_outcome] in Ho.
      * destruct (nth_error _ _) as [a|]; [|discriminate].
        injection Ho as <- <-.
        destruct (enter_log_reads (mode a)) as (Hmidi & Hscr).
        repeat split; try assumption.
        cbn [screens]. rewrite Hscr.
        destruct (AppMode_eqb (mode a) MENU) eqn:Ha.
        -- left. apply AppMode_eqb_MENU in Ha. split; [reflexivity|].
           cbn. congruence.
        -- right. exists []. reflexivity.
      * injection Ho as <- <-. repeat split; try assumption.
        left. split; reflexivity.
    + destruct H as (d & -> & -> & Hd).
      cbn [midi_of screens]. rewrite midi_of_app, screens_app.
      rewrite midi_of_send_effects, screens_send_effects.
      destruct (returnToMenu act).
      * destruct Hd as (dm & Hdm & ->).
        destruct (drawMenu_reads
                    (with_mode (with_touch s (sampled (touch s) raw)) MENU)
                    dm Hwf Hdm) as (Hs & _ & Hmi).
        cbn [midi_of screens app]. rewrite midi_of_app, screens_app, Hs, Hmi.
        rewrite app_nil_r. repeat split; try assumption.
        right. exists []. reflexivity.
      * subst d. rewrite app_nil_r. repeat split; try assumption.
        left. split; reflexivity.
  - destruct (onConnect_log s Hwf) as (d & E & Hd).
    eexists _, _. split; [exact E|].
    rewrite midi_of_app, screens_app, !app_nil_r.
    destruct (AppMode_eqb (currentMode s) MENU) eqn:Hm.
    + apply AppMode_eqb_MENU in Hm.
      destruct (drawMenu_reads (with_connected s true) d Hwf Hd)
        as (Hs & _ & Hmi).
      rewrite Hs, Hmi. repeat split; try assumption.
      right. exists []. cbn. congruence.
    + subst d. repeat split; try assumption. left. split; reflexivity.
  - destruct (onDisconnect_log s Hwf) as (d & E & Hd).
    eexists _, _. split; [exact E|].
    rewrite midi_of_app, screens_app. cbn [midi_of screens].
    rewrite midi_of_sends.
    assert (Hsw : screens (map (fun k => SendMIDI 0x80 k 0) (indices 128)) = [])
      by reflexivity.
    rewrite Hsw, app_nil_r.
    destruct (AppMode_eqb (currentMode s) MENU) eqn:Hm.
    + apply AppMode_eqb_MENU in Hm.
      destruct (drawMenu_reads (with_connected s false) d Hwf Hd)
        as (Hs & _ & Hmi).
      rewrite Hs, Hmi. repeat split; try assumption.
      right. exists []. cbn. congruence.
    + subst d. repeat split; try assumption. left. split; reflexivity.
Qed.

(** X6: the orchestrator's own code calls the Sink only in the sweep of
    [onDisconnect]: a pass of [loop] in [MENU] (hit-testing, entering a
    mode) hands the Sink nothing, a pass in a mode hands it what the
    handler of the mode sends and nothing more, even when the pass returns
    to the menu, and [onConnect] hands it nothing. *)
Theorem sink_calls_of_event (e : Event) (s : State) :
  well_formed s ->
  midi_of (log_of (step e s))
  = match e with
    | Tick _ act => if AppMode_eqb (currentMode s) MENU then [] else sends act
    | Connect => []
    | Disconnect => sweep
    end.
Proof.
  intros Hwf. destruct (step_effects e s Hwf) as (s' & t & E & _ & _ & H & _).
  rewrite E. exact H.
Qed.

Lemma sink_calls_of_event_witness :
  midi_of (log_of (step (Tick (mkSample true 20 20)
                           (mkAction [(0x90, 60, 100)] true))
                        (with_mode initial_state KEYBOARD)))
  = if AppMode_eqb (currentMode (with_mode initial_state KEYBOARD)) MENU
    then [] else sends (mkAction [(0x90, 60, 100)] true).
Proof.
  apply (sink_calls_of_event
           (Tick (mkSample true 20 20) (mkAction [(0x90, 60, 100)] true))
           (with_mode initial_state KEYBOARD)).
  unfold well_formed. cbn. lia.
Defined.

Lemma run_effects es : forall s,
  well_formed s ->
  exists s' t,
    run es s = Some (tt, s', t) /\
    deviceConnected s' = connection_after es (deviceConnected s) /\
    ((screens t = [] /\ currentMode s' = currentMode s) \/
     exists pre, screens t = pre ++ [currentMode s']).
Proof.
  induction es as [|e es IH]; intros s Hwf.
  - exists s, []. repeat split. left. split; reflexivity.
  - destruct (step_effects e s Hwf) as (s1 & t1 & E1 & Hwf1 & Hc1 & _ & Hs1).
    destruct (IH s1 Hwf1) as (s2 & t2 & E2 & Hc2 & Hs2).
    exists s2, (t1 ++ t2). split.
    { cbn [run]. apply (bind_some _ _ s tt s1 t1 tt s2 t2 E1 E2). }
    split.
    { rewrite Hc2, Hc1. destruct e; reflexivity. }
    rewrite screens_app.
    destruct Hs2 as [(-> & Hm2)|(pre2 & ->)].
    + rewrite app_nil_r, Hm2. exact Hs1.
    + right. exists (screens t1 ++ pre2). apply app_assoc.
Qed.

(** X7: as long as no connection callback runs, the display follows the
    mode: after [setup] and after every pass of [loop] that follows, the
    last full-screen paint in the log is the one of the current mode, the
    menu when [currentMode] is [MENU], the screen of mode M when it is
    M. *)
Theorem screen_follows_mode (es : list Event) :
  forallb is_tick es = true ->
  exists s t pre,
    firmware es initial_state = Some (tt, s, t) /\
    screens t = pre ++ [currentMode s].
Proof.
  intros _.
  destruct setup_spec as (t0 & E0).
  assert (S0 : screens t0 = [MENU]).
  { assert (H : t0 = log_of (setup initial_state)) by (rewrite E0; reflexivity).
    rewrite H. reflexivity. }
  destruct (run_effects es initial_state well_formed_initial)
    as (s & t & E & _ & Hs).
  assert (Ef : firmware es initial_state = Some (tt, s, t0 ++ t)).
  { unfold firmware. apply (bind_some _ _ _ tt initial_state t0 tt s t E0 E). }
  destruct Hs as [(Hnil & Hm)|(pre & Hpre)].
  - exists s, (t0 ++ t), []. split; [exact Ef|].
    rewrite screens_app, S0, Hnil, Hm. reflexivity.
  - exists s, (t0 ++ t), ([MENU] ++ pre). split; [exact Ef|].
    rewrite screens_app, S0, Hpre. apply app_assoc.
Qed.

Lemma screen_follows_mode_witness :
  exists s t pre,
    firmware [Tick (mkSample true 64 85) idle;
              Tick (mkSample true 64 85) idle;
              Tick (mkSample false 0 0) (mkAction [] true)] initial_state
    = Some (tt, s, t) /\
    screens t = pre ++ [currentMode s].
Proof.
  apply (screen_follows_mode
           [Tick (mkSample true 64 85) idle;
            Tick (mkSample true 64 85) idle;
            Tick (mkSample false 0 0) (mkAction [] true)]).
  reflexivity.
Defined.

(** X8: [deviceConnected] is written by the two callbacks and by nothing
    else: after any sequence of ticks and connection events it holds what
    the last connection event put there, or its old value if there was
    none. *)
Theorem connection_flag_follows_events (es : list Event) (s : State) :
  well_formed s ->
  exists s' t,
    run es s = Some (tt, s', t) /\
    deviceConnected s' = connection_after es (deviceConnected s).
Proof.
  intros Hwf. destruct (run_effects es s Hwf) as (s' & t & E & Hc & _).
  exists s', t. split; assumption.
Qed.

Lemma connection_flag_follows_events_witness :
  exists s' t,
    run [Connect; Tick (mkSample true 64 85) idle; Disconnect;
         Tick (mkSample false 0 0) idle; Connect;
         Tick (mkSample false 0 0) (mkAction [] true)] initial_state
    = Some (tt, s', t) /\
    deviceConnected s'
    = connection_after
        [Connect; Tick (mkSample true 64 85) idle; Disconnect;
         Tick (mkSample false 0 0) idle; Connect;
         Tick (mkSample false 0 0) (mkAction [] true)]
        (deviceConnected initial_state).
Proof.
  apply (connection_flag_follows_events _ initial_state).
  unfold well_formed. cbn. lia.
Defined.

(** ** Callbacks against ticks *)

Lemma loop_state_connected raw act s b :
  well_formed s ->
  state_of (loop raw act (with_connected s b))
  = option_map (fun s' => with_connected s' b) (state_of (loop raw act s)).
Proof.
  intros Hwf.
  assert (Hwfc : well_formed (with_connected s b)) by exact Hwf.
  destruct (loop_log raw act s Hwf) as (s' & t & E & H).
  destruct (loop_log raw act (with_connected s b) Hwfc) as (sc & tc & Ec & Hc).
  rewrite E, Ec. cbn [state_of option_map]. f_equal.
  change (currentMode (with_connected s b)) with (currentMode s) in Hc.
  change (touch (with_connected s b)) with (touch s) in Hc.
  set (s1 := with_touch s (sampled (touch s) raw)) in *.
  change (with_touch (with_connected s b) (sampled (touch s) raw))
    with (with_connected s1 b) in Hc.
  destruct (AppMode_eqb (currentMode s) MENU).
  - change (touch (with_connected s1 b)) with (touch s1) in Hc.
    destruct H as [(Hj & -> & _)|(Hj & r & Hr & Ho)],
             Hc as [(Hjc & -> & _)|(Hjc & rc & Hrc & Hoc)];
      try congruence; try reflexivity.
    assert (rc = r) by (apply (lowest_hit_unique s1); assumption).
    subst rc. destruct r as [i|]; cbn [touch_outcome] in Ho, Hoc.
    + change (apps (with_connected s1 b)) with (apps s1) in Hoc.
      destruct (nth_error (apps s1) (Z.to_nat i)) as [a|]; [|discriminate].
      injection Ho as <- _. injection Hoc as <- _. reflexivity.
    + injection Ho as <- _. injection Hoc as <- _. reflexivity.
  - destruct H as (_ & _ & -> & _), Hc as (_ & _ & -> & _).
    destruct (returnToMenu act); reflexivity.
Qed.

(** X9: a connection callback and a pass of [loop] commute on the
    globals: whether the callback is taken before the pass or after it,
    the globals end up the same (the logs differ: the menu is drawn with
    the status of the moment). *)
Theorem callback_commutes_with_tick (s : State) (raw : Sample)
    (act : ModeAction) :
  well_formed s ->
  state_of (run [Tick raw act; Connect] s)
    = state_of (run [Connect; Tick raw act] s) /\
  state_of (run [Tick raw act; Disconnect] s)
    = state_of (run [Disconnect; Tick raw act] s) /\
  state_of (run [Tick raw act; Connect] s) <> None /\
  state_of (run [Tick raw act; Disconnect] s) <> None.
Proof.
  intros Hwf.
  destruct (step_effects (Tick raw act) s Hwf) as (s' & t & E & Hwf' & _).
  cbn [step] in E.
  destruct (onConnect_spec s Hwf) as (d1 & _ & E1).
  destruct (onDisconnect_spec s Hwf) as (d2 & _ & E2).
  destruct (onConnect_spec s' Hwf') as (d3 & _ & E3).
  destruct (onDisconnect_spec s' Hwf') as (d4 & _ & E4).
  pose proof (loop_state_connected raw act s true Hwf) as L1.
  pose proof (loop_state_connected raw act s false Hwf) as L2.
  rewrite E in L1, L2. cbn [state_of option_map] in L1, L2.
  cbn [run step]. unfold bind, ret.
  rewrite E, E1, E2, E3, E4.
  destruct (loop raw act (with_connected s true)) as [[[[] sa] ta]|];
    [|discriminate L1].
  destruct (loop raw act (with_connected s false)) as [[[[] sb] tb]|];
    [|discriminate L2].
  cbn [state_of] in *. repeat split; try congruence; discriminate.
Qed.

Lemma callback_commutes_with_tick_witness :
  state_of (run [Tick (mkSample true 64 85) idle; Connect] initial_state)
    = state_of (run [Connect; Tick (mkSample true 64 85) idle] initial_state) /\
  state_of (run [Tick (mkSample true 64 85) idle; Disconnect] initial_state)
    = state_of (run [Disconnect; Tick (mkSample true 64 85) idle]
                  initial_state) /\
  state_of (run [Tick (mkSample true 64 85) idle; Connect] initial_state)
    <> None /\
  state_of (run [Tick (mkSample true 64 85) idle; Disconnect] initial_state)
    <> None.
Proof.
  apply (callback_commutes_with_tick initial_state).
  unfold well_formed. cbn. lia.
Defined.

(** ** The place of the grid on the display *)

(** X10: no cell computation overflows for an index below [2 ^ 24]; every
    cell is a 40 by 40 square that leaves 44 pixels free on the left and on
    the right of the 320 pixel wide display and lies below the header band,
    which ends at line 50; the cell of the icon after [i] is 48 pixels to
    the right in the same row, or back at the left margin 63 pixels
    lower when [i] ends a row of five. *)
Theorem cells_centred_below_header (i : Z) :
  0 <= i < 2 ^ 24 ->
  let '(x, y, w, h) := HandleMenuTouch.cell i in
  let '(x', y', _, _) := HandleMenuTouch.cell (i + 1) in
  w = 40 /\ h = 40 /\
  44 <= x /\ x + w <= 320 - 44 /\ 50 < y /\
  (if i mod 5 =? 4 then x' = 44 /\ y' = y + 63 else x' = x + 48 /\ y' = y).
Proof.
  intros Hi.
  destruct (Z.eq_dec (i + 1) (2 ^ 24)) as [Hlast|Hlast].
  - assert (i = 2 ^ 24 - 1) by lia. subst i. vm_compute.
    repeat split; discriminate.
  - rewrite (cell_closed_form i), (cell_closed_form (i + 1)) by lia.
    pose proof (Z.div_mod i 5 ltac:(lia)) as Ei.
    pose proof (Z.mod_pos_bound i 5 ltac:(lia)) as Bi.
    pose proof (Z.div_mod (i + 1) 5 ltac:(lia)) as Ej.
    pose proof (Z.mod_pos_bound (i + 1) 5 ltac:(lia)) as Bj.
    pose proof (Z.div_pos i 5 ltac:(lia) ltac:(lia)) as Pi.
    destruct (Z.eqb_spec (i mod 5) 4) as [E4|E4]; repeat split; lia.
Qed.

Lemma cells_centred_below_header_witness :
  let '(x, y, w, h) := HandleMenuTouch.cell 4 in
  let '(x', y', _, _) := HandleMenuTouch.cell (4 + 1) in
  w = 40 /\ h = 40 /\
  44 <= x /\ x + w <= 320 - 44 /\ 50 < y /\
  (if 4 mod 5 =? 4 then x' = 44 /\ y' = y + 63 else x' = x + 48 /\ y' = y).
Proof.
  apply (cells_centred_below_header 4). lia.
Defined.

(** X11: the rectangle [(100, 200, 120, 20)] that [drawMenu] clears for
    the "BLE WAITING..." line is free of icons as long as there are at most
    11 of them: the cells that overlap it are exactly those of the indices
    11, 12 and 13. *)
Theorem waiting_area_overlap (i : Z) :
  0 <= i < 2 ^ 24 ->
  rects_overlap (HandleMenuTouch.cell i) (100, 200, 120, 20) = true <->
  11 <= i <= 13.
Proof.
  intros Hi. rewrite cell_closed_form by assumption.
  unfold rects_overlap. rewrite !andb_true_iff, !Z.ltb_lt.
  pose proof (Z.div_mod i 5 ltac:(lia)) as Ei.
  pose proof (Z.mod_pos_bound i 5 ltac:(lia)) as Bi.
  pose proof (Z.div_pos i 5 ltac:(lia) ltac:(lia)) as Pi.
  set (q := i / 5) in *. set (r := i mod 5) in *. clearbody q r.
  split.
  - intros H. assert (q = 2) by lia. assert (1 <= r <= 3) by lia. lia.
  - intros H. assert (q = 2) by lia. assert (1 <= r <= 3) by lia. lia.
Qed.

Lemma waiting_area_overlap_witness :
  rects_overlap (HandleMenuTouch.cell 11) (100, 200, 120, 20) = true <->
  11 <= 11 <= 13.
Proof.
  apply (waiting_area_overlap 11). lia.
Defined.

(** ** [setup] *)

(** X12: [setup] starts with the hardware and BLE bring-up (which assigns
    [pCharacteristic]); it leaves [deviceConnected], [currentMode],
    [touch], [apps] and [numApps] as they were, paints the menu once,
    hands the Sink nothing, and calls the initialiser of nine modes, each
    once: of every mode of the registry but [PHYSICS_DROP], which no call
    of [setup] initialises. *)
Theorem setup_initialises_all_but_physics_drop (s : State) (m : AppMode) :
  well_formed s ->
  exists s' t,
    setup s = Some (tt, s', HardwareInit :: t) /\
    deviceConnected s' = deviceConnected s /\
    currentMode s' = currentMode s /\
    touch s' = touch s /\
    apps s' = apps s /\
    numApps s' = numApps s /\
    screens t = [MENU] /\
    midi_of t = [] /\
    count_occ AppMode_eq_dec (initialised t) m
    = (if AppMode_eqb m MENU || AppMode_eqb m PHYSICS_DROP
       then 0%nat else 1%nat).
Proof.
  intros Hwf.
  destruct (drawMenu_ok s Hwf) as (dm & E & _).
  destruct (drawMenu_log s Hwf) as (th & ti & E' & _ & _ & _ & T & C & _).
  destruct (drawMenu_reads s dm Hwf E) as (Hs & _ & Hm).
  assert (Hi : initialised dm = []).
  { rewrite E in E'. injection E' as ->.
    assert (Hq : forall l, forallb is_tft l = true -> initialised l = []).
    { induction l as [|e l IH]; [reflexivity|].
      destruct e; cbn; try discriminate. exact IH. }
    assert (Hic : forallb is_tft ti = true).
    { clear -C. induction ti as [|e ti IH]; [reflexivity|].
      cbn [forallb] in *. apply andb_true_iff in C as [He Ht].
      rewrite (IH Ht). destruct e; try discriminate He. reflexivity. }
    apply Hq. rewrite forallb_app, T, Hic. reflexivity. }
  exists s,
         ([InitializeMode KEYBOARD; InitializeMode SEQUENCER;
           InitializeMode BOUNCING_BALL; InitializeMode RANDOM_GENERATOR;
           InitializeMode XY_PAD; InitializeMode ARPEGGIATOR;
           InitializeMode GRID_PIANO; InitializeMode AUTO_CHORD;
           InitializeMode LFO] ++ dm ++ [UpdateStatus]).
  split.
  { unfold setup, bind, emit, updateStatus. rewrite E. reflexivity. }
  assert (Happ : forall l1 l2,
             initialised (l1 ++ l2) = initialised l1 ++ initialised l2).
  { induction l1 as [|e l1 IH]; intros l2; [reflexivity|].
    destruct e; cbn [initialised app]; rewrite IH; reflexivity. }
  do 5 (split; [reflexivity|]).
  rewrite !screens_app, !midi_of_app, !Happ, Hs, Hm, Hi.
  split; [reflexivity|]. split; [reflexivity|].
  destruct m; reflexivity.
Qed.

Lemma setup_initialises_all_but_physics_drop_witness :
  exists s' t,
    setup initial_state = Some (tt, s', HardwareInit :: t) /\
    deviceConnected s' = deviceConnected initial_state /\
    currentMode s' = currentMode initial_state /\
    touch s' = touch initial_state /\
    apps s' = apps initial_state /\
    numApps s' = numApps initial_state /\
    screens t = [MENU] /\
    midi_of t = [] /\
    count_occ AppMode_eq_dec (initialised t) PHYSICS_DROP
    = (if AppMode_eqb PHYSICS_DROP MENU || AppMode_eqb PHYSICS_DROP PHYSICS_DROP
       then 0%nat else 1%nat).
Proof.
  apply (setup_initialises_all_but_physics_drop initial_state PHYSICS_DROP).
  unfold well_formed. cbn. lia.
Defined.

(** X13: with up to [2 ^ 24] icons, the artwork of every icon that
    [drawMenu] paints stays inside the cell of that icon, which is the
    square a touch is tested against. *)
Theorem menu_artwork_inside_cells (wave : Z -> Z) (s : State)
    (m : AppMode) (x y w h : Z) :
  (forall i, -6 <= wave i <= 6) ->
  well_formed s ->
  numApps s <= 2 ^ 24 ->
  In (m, (x, y, w, h)) (drawn_icons (log_of (drawMenu s))) ->
  exists j,
    0 <= j < numApps s /\
    (x, y, w, h) = HandleMenuTouch.cell j /\
    Forall (fun c => Artwork.inside x y w c = true)
           (Artwork.drawAppGraphics wave m x y w).
Proof.
  intros Hw Hwf Hn Hin.
  destruct (drawMenu_log s Hwf) as (th & ti & E & _ & _ & Dh & _ & _ & _ & D).
  rewrite E in Hin. cbn [log_of] in Hin.
  rewrite drawn_icons_app, Dh in Hin. cbn [app] in Hin.
  destruct (D _ _ Hin) as (j & a & Hj & _ & -> & Hr).
  exists j. split; [exact Hj|]. split; [exact Hr|].
  rewrite cell_closed_form in Hr by lia.
  assert (Hx : x = 44 + 48 * (j mod 5)) by congruence.
  assert (Hy : y = 65 + 63 * (j / 5)) by congruence.
  assert (Hw40 : w = 40) by congruence.
  clear Hr Hin.
  pose proof (Z.mod_pos_bound j 5 ltac:(lia)) as Bj.
  assert (Hq : 0 <= j / 5 < 2 ^ 24).
  { split; [apply Z.div_pos; lia|apply Z.div_lt_upper_bound; lia]. }
  eapply Forall_impl; [|apply (artwork_inside wave (mode a)); try lia; exact Hw].
  intros c [Hc _]. exact Hc.
Qed.

Lemma menu_artwork_inside_cells_witness :
  exists j,
    0 <= j < numApps initial_state /\
    (92, 128, 40, 40) = HandleMenuTouch.cell j /\
    Forall (fun c => Artwork.inside 92 128 40 c = true)
           (Artwork.drawAppGraphics (fun _ => 0) ARPEGGIATOR 92 128 40).
Proof.
  apply (menu_artwork_inside_cells (fun _ => 0) initial_state ARPEGGIATOR).
  - intros i. lia.
  - unfold well_formed. cbn. lia.
  - cbn. lia.
  - vm_compute. do 6 right. left. reflexivity.
Defined.
